(** * Johari Window resource evaluator

    A shallow embedding of the scoring-to-classification engine, the
    coaching catalog, the evidence-gate flag, the plot coordinate mapper
    and the saved-resource store of the evaluator (App.tsx), followed by
    the properties proved about them.

    Conventions.
    - A rating is a JavaScript number; the sliders only ever produce the
      integers 1..5, so ratings are modelled as [Z].  The plot mapper, whose
      arithmetic divides, is modelled on binary64 floats.
    - A JavaScript string is modelled as the Rocq [string] of its UTF-8
      bytes.
    - An object used as a dictionary is a [gmap string _]; reading a missing
      key gives [None] where JavaScript gives [undefined]. *)

From Stdlib Require Import Ascii ZArith QArith Floats DecimalPos DecimalZ.
From stdpp Require Import gmap strings list fin_maps pretty.

Local Open Scope Z_scope.

(** ** Classification engine and coaching catalog *)

Module Engine.

(** Value of [QUADRANTS]: [{ name: string; desc: string }]. *)
Record QuadrantResult := { name : string; desc : string }.

#[global] Instance QuadrantResult_eq_dec : EqDecision QuadrantResult.
Proof. solve_decision. Defined.

(** [type PairKey = typeof PAIRS[number]["key"]]. *)
Inductive PairKey := RAID | EFIM | SUCO.

#[global] Instance PairKey_eq_dec : EqDecision PairKey.
Proof. solve_decision. Defined.

(** The string a [PairKey] is at run time. *)
Definition key_string (p : PairKey) : string :=
  match p with RAID => "RAID" | EFIM => "EFIM" | SUCO => "SUCO" end.

(** An element of [PAIRS]; [pair_x] and [pair_y] are the fields [x] and [y],
    the names of the criteria on the two axes. *)
Record Pair := { key : PairKey; title : string; pair_x : string; pair_y : string }.

Definition PAIRS : list Pair :=
  [ {| key := RAID; title := "Relevance vs Alignment";
       pair_x := "Alignment"; pair_y := "Relevance" |};
    {| key := EFIM; title := "Effectiveness vs Impact";
       pair_x := "Impact"; pair_y := "Effectiveness" |};
    {| key := SUCO; title := "Sustainability vs Coherence";
       pair_x := "Coherence"; pair_y := "Sustainability" |} ].

(** Quadrant labels and descriptions per pair. *)
Definition QUADRANTS : gmap string QuadrantResult :=
  list_to_map
  [ ("RAID_HH", {| name := "Sweet Spot";
       desc := "Strategic choice: valuable locally and backed by curriculum/system." |});
    ("RAID_HL", {| name := "Hidden Gems";
       desc := "Strong local fit but not fully aligned; adapt/map or advocate." |});
    ("RAID_LH", {| name := "Box-Tickers";
       desc := "Easy to justify on paper; limited classroom value." |});
    ("RAID_LL", {| name := "Misfits";
       desc := "Neither useful nor aligned; consider phase-out." |});
    ("EFIM_HH", {| name := "Game-Changers";
       desc := "Deliver outcomes and reshape culture/outcomes more broadly." |});
    ("EFIM_HL", {| name := "Efficient Tools";
       desc := "Hit targets well but limited wider change; niche yet valuable." |});
    ("EFIM_LH", {| name := "Catalysts";
       desc := "Inconsistent outcomes but spark important long-term shifts." |});
    ("EFIM_LL", {| name := "Ineffectual";
       desc := "Neither achieves goals nor creates wider value." |});
    ("SUCO_HH", {| name := "Strategic Anchors";
       desc := "Long-lasting and well-integrated; backbone of strategy." |});
    ("SUCO_HL", {| name := "Stubborn Survivors";
       desc := "Enduring but isolated; risk inefficiency/silos." |});
    ("SUCO_LH", {| name := "Short-Lived Allies";
       desc := "Well-fitting but fragile; benefits may fade." |});
    ("SUCO_LL", {| name := "Dead Ends";
       desc := "Neither durable nor integrated; drains resources." |}) ].

(** The object returned for the middle case. *)
Definition Uncertain : QuadrantResult :=
  {| name := "Uncertain";
     desc := "Evidence is inconclusive at present. Pilot or collect more data before committing; clarify success criteria, map curriculum links, and test in 1–2 classes." |}.

(** [b ? "H" : "L"]. *)
Definition HL (b : bool) : string := if b then "H" else "L".

(** The template literal [`${pair}_${yHigh ? "H" : "L"}${xHigh ? "H" : "L"}`]. *)
Definition quadrantCode (pair : PairKey) (yHigh xHigh : bool) : string :=
  key_string pair +:+ "_" +:+ HL yHigh +:+ HL xHigh.

(** [useQuadrant], with the table it indexes as a parameter.  The result is
    [None] where the source returns [undefined] (a code that is not a key of
    the table). *)
Definition useQuadrantWith (catalog : gmap string QuadrantResult)
    (pair : PairKey) (xVal yVal : Z) : option QuadrantResult :=
  if (xVal =? 3) && (yVal =? 3) then Some Uncertain
  else
    let xHigh := xVal >=? 4 in
    let yHigh := yVal >=? 4 in
    catalog !! quadrantCode pair yHigh xHigh.

Definition useQuadrant : PairKey → Z → Z → option QuadrantResult :=
  useQuadrantWith QUADRANTS.

(** An entry of [MID_EDGE_COACH]. *)
Record EdgeCoach := { y3_x4plus : string; y4plus_x3 : string; y3_x3 : string }.

(** Coaching text for when one or both axes are exactly 3. *)
Definition MID_EDGE_COACH : gmap string EdgeCoach :=
  list_to_map
  [ ("RAID", {|
       y3_x4plus := "Good on paper; strengthen classroom fit with quick adaptations, exemplars, and teacher feedback loops.";
       y4plus_x3 := "Strong local fit; close the gaps—map outcomes explicitly, add scope & sequence links.";
       y3_x3 := "Promising but under-specified—pilot, capture evidence, and co-design a minimal adaptation guide." |});
    ("EFIM", {|
       y3_x4plus := "Catalytic but unreliable; standardise the core routine and monitor fidelity to stabilise outcomes.";
       y4plus_x3 := "Targets met, but little culture shift; widen adoption, share wins, and integrate into whole-school routines.";
       y3_x3 := "Try a contained pilot with clear measures and coaching; keep/dump based on evidence at term review." |});
    ("SUCO", {|
       y3_x4plus := "Well-fitting but effortful; embed into timetable, roles, and budget to de-fragilise.";
       y4plus_x3 := "Durable but siloed; align language, timelines, and data cycles to reduce friction.";
       y3_x3 := "Rationalise overlaps, name owners, and set a ‘sunset unless embedded’ checkpoint." |}) ].

(** [getEdgeCoach]; [None] is [null]. *)
Definition getEdgeCoach (pairKey : PairKey) (x y threshold : Z) : option string :=
  match MID_EDGE_COACH !! key_string pairKey with
  | None => None
  | Some coach =>
      let hi (n : Z) := n >=? threshold in
      if (y =? 3) && hi x then Some (y3_x4plus coach)
      else if hi y && (x =? 3) then Some (y4plus_x3 coach)
      else if (y =? 3) && (x =? 3) then Some (y3_x3 coach)
      else None
  end.

(** [a ?? b]: the left operand unless it is [null]. *)
Definition nullish {A} (a : option A) (b : A) : A :=
  match a with Some v => v | None => b end.

(** The paragraph under the quadrant badge of a tab panel,
    [getEdgeCoach(p.key, scores[p.x], scores[p.y], 4) ?? quad.desc], where
    [quad] is the quadrant of the active pair. *)
Definition panelText (quad : QuadrantResult) (p : PairKey) (x y : Z) : string :=
  nullish (getEdgeCoach p x y 4) (desc quad).

(** The text line of a summary card, [{q.name} — {coach ?? q.desc}], as the
    pair of its two parts.  [None] stands for the [TypeError] of reading
    [q.name] from [undefined]. *)
Definition summaryText (p : PairKey) (x y : Z) : option (string * string) :=
  q ← useQuadrant p x y;
  let coach := getEdgeCoach p x y 4 in
  Some (name q, nullish coach (desc q)).

(** [const gateActive = x === 3 || y === 3], as computed inside [Grid] and,
    from the same two ratings, in the summary card of [App]. *)
Definition gateActive (x y : Z) : bool := (x =? 3) || (y =? 3).

(** The badge condition of a tab panel,
    [scores[p.y] === 3 || scores[p.x] === 3]. *)
Definition panelGate (x y : Z) : bool := (y =? 3) || (x =? 3).

(** The four entries of the table a pair can be given, in the order HH, HL,
    LH, LL of their codes (Y axis first). *)
Definition quadrantsOf (pair : PairKey) : list QuadrantResult :=
  omap (λ yx : bool * bool, QUADRANTS !! quadrantCode pair yx.1 yx.2)
       [ (true, true); (true, false); (false, true); (false, false) ].

End Engine.

(** ** Plot coordinate mapper *)

Module Plot.

(** The JavaScript number an integer is (exact below 2^53). *)
Definition num (z : Z) : float :=
  if z <? 0 then (- of_uint63 (Uint63.of_Z (- z)))%float
  else of_uint63 (Uint63.of_Z z).

(** The rational a binary64 value denotes; [None] for NaN and the
    infinities. *)
Definition SF2Q (f : spec_float) : option Q :=
  match f with
  | S754_zero _ => Some 0%Q
  | S754_finite s m e =>
      Some ((if s then -1 else 1) * inject_Z (Z.pos m) * 2 ^ e)%Q
  | _ => None
  end.

Definition float_value (f : float) : option Q := SF2Q (Prim2SF f).

(** [f] is a finite number and denotes exactly [q]. *)
Definition represents (f : float) (q : Q) : Prop :=
  ∃ q', float_value f = Some q' ∧ (q' == q)%Q.

(** The constants of [Grid]: [size], [padding], [plotW], [plotH]. *)
Definition size (compact : bool) : float := if compact then 220%float else 300%float.
Definition padding : float := 24%float.
Definition plotW (compact : bool) : float := (size compact - padding * 2)%float.
Definition plotH (compact : bool) : float := (size compact - padding * 2)%float.

Record Pos := { cx : float; cy : float }.

(** [toPos], the arrow function of [Grid]; it closes over [padding], [plotW]
    and [plotH], which depend on [compact] only. *)
Definition toPos (compact : bool) (sx sy : Z) : Pos :=
  {| cx := (padding + ((num sx - 1) / 4) * plotW compact)%float;
     cy := (padding + (1 - (num sy - 1) / 4) * plotH compact)%float |}.

(** An element of the [points] prop. *)
Record Point :=
  { pt_x : Z; pt_y : Z; pt_color : option string; pt_title : option string }.

(** What [Grid] draws, as far as positions go: one circle per saved point,
    the dashed ring around the current point when the gate is active, and
    the current point. *)
Record GridSvg :=
  { savedCircles : list Pos; ring : option Pos; currentCircle : Pos }.

Definition Grid (x y : Z) (compact : bool) (points : list Point) : GridSvg :=
  let xPos := cx (toPos compact x y) in
  let yPos := cy (toPos compact x y) in
  {| savedCircles := (λ p, toPos compact (pt_x p) (pt_y p)) <$> points;
     ring := if Engine.gateActive x y
             then Some {| cx := xPos; cy := yPos |} else None;
     currentCircle := {| cx := xPos; cy := yPos |} |}.

(** The mapping as the specification words it, over exact rationals:
    [toPosition(ratingX, ratingY, plotWidth, plotHeight, padding)]. *)
Definition toPosition (ratingX ratingY plotWidth plotHeight pad : Q) : Q * Q :=
  ((pad + ((ratingX - 1) / 4) * plotWidth)%Q,
   (pad + (1 - (ratingY - 1) / 4) * plotHeight)%Q).

(** The exact plot dimensions: [plotW] and [plotH] are 172 in a compact grid
    and 252 otherwise, and [padding] is 24. *)
Definition plotDim (compact : bool) : Q := if compact then 172%Q else 252%Q.

End Plot.

(** ** The first revision

    src/App.tsx, and the second file of the revision history: threshold 3,
    no middle case, no saved points; the plot position is computed in
    [Grid] itself. *)
Module Legacy.
Import Engine.

Definition useQuadrant (pair : PairKey) (xVal yVal : Z) : option QuadrantResult :=
  let xHigh := xVal >=? 3 in
  let yHigh := yVal >=? 3 in
  QUADRANTS !! quadrantCode pair yHigh xHigh.

(** [xPos] and [yPos] of [Grid]. *)
Definition xPos (compact : bool) (x : Z) : float :=
  (Plot.padding + ((Plot.num x - 1) / 4) * Plot.plotW compact)%float.
Definition yPos (compact : bool) (y : Z) : float :=
  (Plot.padding + (1 - (Plot.num y - 1) / 4) * Plot.plotH compact)%float.

End Legacy.

(** ** The platform: exceptions, strings, JSON values, [localStorage] *)

Module Js.

(** The result of evaluating an expression that may throw. *)
Inductive outcome (A : Type) : Type :=
  | Returned (a : A)
  | Thrown (e : string).
Arguments Returned {A} a.
Arguments Thrown {A} e.

(** [try { return body } catch { return handler }]. *)
Definition try_catch {A} (body : outcome A) (handler : outcome A) : outcome A :=
  match body with
  | Returned a => Returned a
  | Thrown _ => handler
  end.

(** [a || b] on strings: [null] and the empty string are falsy. *)
Definition or_string (a : option string) (b : string) : string :=
  match a with
  | Some (String c s) => String c s
  | Some "" | None => b
  end.

(** *** [String.prototype.trim] *)

Definition bytes (l : list nat) : string :=
  foldr (λ n s, String (Ascii.ascii_of_nat n) s) "" l.

(** The code points of WhiteSpace and LineTerminator, in UTF-8: TAB, LF, VT,
    FF, CR, SP, U+00A0, U+1680, U+2000..U+200A, U+2028, U+2029, U+202F,
    U+205F, U+3000, U+FEFF. *)
Definition WhiteSpace : list string :=
  bytes <$>
  [ [9]; [10]; [11]; [12]; [13]; [32]; [194; 160]; [225; 154; 128];
    [226; 128; 128]; [226; 128; 129]; [226; 128; 130]; [226; 128; 131];
    [226; 128; 132]; [226; 128; 133]; [226; 128; 134]; [226; 128; 135];
    [226; 128; 136]; [226; 128; 137]; [226; 128; 138];
    [226; 128; 168]; [226; 128; 169]; [226; 128; 175];
    [226; 129; 159]; [227; 128; 128]; [239; 187; 191] ]%nat.

(** [Some rest] when [s] is [p] followed by [rest]. *)
Fixpoint strip_prefix (p s : string) : option string :=
  match p, s with
  | "", _ => Some s
  | String a p', String b s' =>
      if decide (a = b) then strip_prefix p' s' else None
  | String _ _, "" => None
  end.

(** Remove one leading occurrence of one of [pats]. *)
Definition skip_one (pats : list string) (s : string) : option string :=
  foldr (λ p acc, match strip_prefix p s with Some r => Some r | None => acc end)
        None pats.

Fixpoint skip_all (fuel : nat) (pats : list string) (s : string) : string :=
  match fuel with
  | O => s
  | S fuel' =>
      match skip_one pats s with
      | Some r => skip_all fuel' pats r
      | None => s
      end
  end.

Definition trimStart (s : string) : string :=
  skip_all (String.length s) WhiteSpace s.

Definition trimEnd (s : string) : string :=
  String.rev (skip_all (String.length s) (String.rev <$> WhiteSpace) (String.rev s)).

Definition trim (s : string) : string := trimEnd (trimStart s).

(** A string of ASCII white space only; the empty string is one. *)
Fixpoint all_space (s : string) : bool :=
  match s with
  | "" => true
  | String c s' => Ascii.is_space c && all_space s'
  end.

(** *** JSON values

    The values [JSON.parse] can return.  Numbers are restricted to the
    integers; the store never writes another one.  An object lists its own
    properties. *)
#[local] Unset Elimination Schemes.
Inductive json : Type :=
  | JNull
  | JBool (b : bool)
  | JNum (n : Z)
  | JStr (s : string)
  | JArr (l : list json)
  | JObj (l : list (string * json)).

(** A value whose objects have no repeated key. *)
Inductive json_wf : json → Prop :=
  | wf_JNull : json_wf JNull
  | wf_JBool b : json_wf (JBool b)
  | wf_JNum n : json_wf (JNum n)
  | wf_JStr s : json_wf (JStr s)
  | wf_JArr l : Forall json_wf l → json_wf (JArr l)
  | wf_JObj l : NoDup l.*1 → Forall (λ kv, json_wf kv.2) l → json_wf (JObj l).
#[local] Set Elimination Schemes.

(** Induction on JSON values, with the hypothesis for every element of an
    array and every member of an object. *)
Section json_induction.
Variable P : json → Prop.
Hypothesis Hnull : P JNull.
Hypothesis Hbool : ∀ b, P (JBool b).
Hypothesis Hnum : ∀ n, P (JNum n).
Hypothesis Hstr : ∀ s, P (JStr s).
Hypothesis Harr : ∀ l, Forall P l → P (JArr l).
Hypothesis Hobj : ∀ l, Forall (λ kv, P kv.2) l → P (JObj l).

Fixpoint json_induction (v : json) : P v :=
  match v with
  | JNull => Hnull
  | JBool b => Hbool b
  | JNum n => Hnum n
  | JStr s => Hstr s
  | JArr l =>
      Harr l ((fix all (l : list json) : Forall P l :=
                 match l with
                 | [] => List.Forall_nil P
                 | x :: l' => List.Forall_cons P x l' (json_induction x) (all l')
                 end) l)
  | JObj l =>
      Hobj l ((fix all (l : list (string * json)) : Forall (λ kv, P kv.2) l :=
                 match l with
                 | [] => List.Forall_nil _
                 | kv :: l' => List.Forall_cons _ kv l' (json_induction kv.2) (all l')
                 end) l)
  end.
End json_induction.

(** [JSON.stringify] and [JSON.parse], with the three facts about them the
    store relies on: a value read back from its own serialisation is the
    value; ["[]"] is the empty array; the empty string is not JSON. *)
Class JsonCodec := {
  JSON_stringify : json → string;
  JSON_parse : string → outcome json;
  parse_stringify : ∀ v, json_wf v → JSON_parse (JSON_stringify v) = Returned v;
  parse_empty_array : JSON_parse "[]" = Returned (JArr []);
  parse_empty_string : ∃ e, JSON_parse "" = Thrown e;
}.

(** [localStorage]: string keys, string values. *)
Definition getItem (k : string) (ls : gmap string string) : option string := ls !! k.
Definition setItem (k v : string) (ls : gmap string string) : gmap string string :=
  <[k := v]> ls.

End Js.

(** ** The saved-resource store *)

(** [type SavedResource = { id: string; name: string; scores: Scores }]. *)
Module SavedResource.
Record t := { id : string; name : string; scores : gmap string Z }.
End SavedResource.

Module Store.
Import Js.

(** What one evaluation of [crypto.randomUUID?.()] and of [Date.now()]
    gives: [randomUUID] is [None] where the method does not exist. *)
Record IdSource := { randomUUID : option string; now : Z }.

(** [(crypto as any).randomUUID?.() || String(Date.now())]. *)
Definition newId (src : IdSource) : string :=
  or_string (randomUUID src) (pretty (now src)).

(** The state of [App] that the store reads and writes, and the
    [localStorage] of the page. *)
Record State := {
  pairKey : Engine.PairKey;
  scores : gmap string Z;
  resources : list SavedResource.t;
  resourceName : string;
  localStorage : gmap string string;
}.

(** The initial value of [scores]. *)
Definition initialScores : gmap string Z :=
  list_to_map
    [ ("Relevance", 3); ("Alignment", 3); ("Effectiveness", 3);
      ("Impact", 3); ("Sustainability", 3); ("Coherence", 3) ].

(** The six criteria. *)
Definition criteria : list string :=
  [ "Relevance"; "Alignment"; "Effectiveness"; "Impact"; "Sustainability";
    "Coherence" ].

(** The JSON value a resource list is. *)
Definition scores_to_json (s : gmap string Z) : json :=
  JObj ((λ kv, (kv.1, JNum kv.2)) <$> map_to_list s).

Definition resource_to_json (r : SavedResource.t) : json :=
  JObj [ ("id", JStr (SavedResource.id r));
         ("name", JStr (SavedResource.name r));
         ("scores", scores_to_json (SavedResource.scores r)) ].

Definition resources_to_json (rs : list SavedResource.t) : json :=
  JArr (resource_to_json <$> rs).

(** The typed view of a parsed value, [as SavedResource[]]: [None] when the
    value is not a list of resources. *)
Definition get_field (k : string) (l : list (string * json)) : option json :=
  (λ hit : nat * (string * json), hit.2.2) <$> list_find (λ kv, kv.1 = k) l.

Definition json_to_scores (v : json) : option (gmap string Z) :=
  match v with
  | JObj l =>
      list_to_map <$>
        mapM (λ kv, match kv.2 with JNum n => Some (kv.1, n) | _ => None end) l
  | _ => None
  end.

Definition json_to_resource (v : json) : option SavedResource.t :=
  match v with
  | JObj l =>
      i ← get_field "id" l;
      n ← get_field "name" l;
      s ← get_field "scores" l ≫= json_to_scores;
      match i, n with
      | JStr i, JStr n =>
          Some {| SavedResource.id := i; SavedResource.name := n;
                  SavedResource.scores := s |}
      | _, _ => None
      end
  | _ => None
  end.

Definition json_to_resources (v : json) : option (list SavedResource.t) :=
  match v with
  | JArr l => mapM json_to_resource l
  | _ => None
  end.

Section store.
Context `{codec : !JsonCodec}.

(** The initialiser of [resources]:
    [try { return JSON.parse(localStorage.getItem("resourcesV1") || "[]") }
     catch { return [] }]. *)
Definition load (ls : gmap string string) : outcome json :=
  try_catch
    (JSON_parse (or_string (getItem "resourcesV1" ls) "[]"))
    (Returned (JArr [])).

(** The state after the first render on a page whose storage is [ls];
    [None] when what [load] returns is not a list of resources. *)
Definition start (ls : gmap string string) : option State :=
  match load ls with
  | Returned v =>
      rs ← json_to_resources v;
      Some {| pairKey := Engine.RAID; scores := initialScores; resources := rs;
              resourceName := ""; localStorage := ls |}
  | Thrown _ => None
  end.

(** [saveAll(next)]. *)
Definition saveAll (next : list SavedResource.t) (st : State) : State :=
  {| pairKey := pairKey st; scores := scores st;
     resources := next;
     resourceName := resourceName st;
     localStorage :=
       setItem "resourcesV1" (JSON_stringify (resources_to_json next))
               (localStorage st) |}.

(** [resourceName.trim() || `Resource ${resources.length + 1}`]. *)
Definition savedName (st : State) : string :=
  or_string (Some (trim (resourceName st)))
            ("Resource " +:+ pretty (length (resources st) + 1)%nat).

(** [setResourceName(v)]. *)
Definition setResourceName (v : string) (st : State) : State :=
  {| pairKey := pairKey st; scores := scores st; resources := resources st;
     resourceName := v; localStorage := localStorage st |}.

(** [saveCurrentResource()].  The spread [{ ...scores }] copies the current
    scores; on values a copy is the value. *)
Definition saveCurrentResource (src : IdSource) (st : State) : State :=
  let name := savedName st in
  let r := {| SavedResource.id := newId src; SavedResource.name := name;
              SavedResource.scores := scores st |} in
  let next := resources st ++ [r] in
  setResourceName "" (saveAll next st).

(** The entry [saveCurrentResource] appends. *)
Definition savedEntry (src : IdSource) (st : State) : SavedResource.t :=
  {| SavedResource.id := newId src; SavedResource.name := savedName st;
     SavedResource.scores := scores st |}.

(** [deleteResource(id)]. *)
Definition deleteResource (id : string) (st : State) : State :=
  let next := filter (λ r, SavedResource.id r ≠ id) (resources st) in
  saveAll next st.

End store.

(** [setScores((s) => ({ ...s, [k]: n }))], the update a slider makes. *)
Definition setScores (k : string) (n : Z) (st : State) : State :=
  {| pairKey := pairKey st; scores := <[k := n]> (scores st);
     resources := resources st; resourceName := resourceName st;
     localStorage := localStorage st |}.

(** [setPairKey(v)]. *)
Definition setPairKey (v : Engine.PairKey) (st : State) : State :=
  {| pairKey := v; scores := scores st; resources := resources st;
     resourceName := resourceName st; localStorage := localStorage st |}.

(** [PAIRS.find((p) => p.key === pairKey)!]. *)
Definition pair (st : State) : option Engine.Pair :=
  (λ hit : nat * Engine.Pair, hit.2)
    <$> list_find (λ p, Engine.key p = pairKey st) Engine.PAIRS.

(** The gate of the summary card of pair [p],
    [scores[p.x] === 3 || scores[p.y] === 3]; [None] when a rating is
    missing from [scores]. *)
Definition summaryGate (p : Engine.Pair) (st : State) : option bool :=
  x ← scores st !! Engine.pair_x p;
  y ← scores st !! Engine.pair_y p;
  Some (Engine.gateActive x y).

(** The gate badge of the tab panel of pair [p]. *)
Definition panelGate (p : Engine.Pair) (st : State) : option bool :=
  x ← scores st !! Engine.pair_x p;
  y ← scores st !! Engine.pair_y p;
  Some (Engine.panelGate x y).

(** Color palette for saved resources. *)
Definition COLORS : list string :=
  [ "#0ea5e9"; "#ef4444"; "#10b981"; "#a78bfa"; "#f59e0b"; "#22c55e";
    "#14b8a6"; "#f43f5e" ].

(** The [points] handed to the [Grid] of pair [p], one per saved resource:
    [resources.map((r, idx) => ({ x: r.scores[p.x], y: r.scores[p.y],
     color: COLORS[idx % COLORS.length], title: r.name }))];
    [None] when a rating is missing from a saved [scores]. *)
Definition pairPoints (p : Engine.Pair) (st : State) : option (list Plot.Point) :=
  mapM (λ ir : nat * SavedResource.t,
    x ← SavedResource.scores ir.2 !! Engine.pair_x p;
    y ← SavedResource.scores ir.2 !! Engine.pair_y p;
    Some {| Plot.pt_x := x; Plot.pt_y := y;
            Plot.pt_color := COLORS !! (ir.1 `mod` length COLORS)%nat;
            Plot.pt_title := Some (SavedResource.name ir.2) |})
    (imap (λ idx r, (idx, r)) (resources st)).

End Store.

(** ** The store with its objects

    The same operations with the [scores] objects kept in an object store,
    so that two references to one object can be told from two equal
    objects.  Only [scores] objects are tracked: they are the only objects
    the operations copy.  Objects are never freed; an address is the
    position of the object in the store. *)

Module Heap.
Import Js.

Definition loc := nat.

(** A saved resource, its [scores] a reference. *)
Record Saved := { id : string; name : string; scores : loc }.

Record State := {
  objects : list (gmap string Z);
  pairKey : Engine.PairKey;
  scores_ref : loc;
  resources : list Saved;
  resourceName : string;
  localStorage : gmap string string;
}.

(** The object at an address. *)
Definition read (h : list (gmap string Z)) (l : loc) : gmap string Z := h !!! l.

(** A new object: it gets the next address. *)
Definition alloc (o : gmap string Z) (h : list (gmap string Z))
  : list (gmap string Z) * loc :=
  (h ++ [o], length h).

(** The object literal [{ ...s }]. *)
Definition spread (s : loc) (h : list (gmap string Z)) : list (gmap string Z) * loc :=
  alloc (read h s) h.

(** The object literal [{ ...s, [k]: n }]. *)
Definition spread_with (s : loc) (k : string) (n : Z) (h : list (gmap string Z))
  : list (gmap string Z) * loc :=
  alloc (<[k := n]> (read h s)) h.

(** The assignment [s[k] = n], which changes the object in place.  No
    operation of the app performs it. *)
Definition assign (s : loc) (k : string) (n : Z) (h : list (gmap string Z))
  : list (gmap string Z) :=
  <[s := <[k := n]> (read h s)]> h.

(** The value a saved resource is, and the value-level state a state is. *)
Definition resource_value (h : list (gmap string Z)) (r : Saved) : SavedResource.t :=
  {| SavedResource.id := id r; SavedResource.name := name r;
     SavedResource.scores := read h (scores r) |}.

Definition value (st : State) : Store.State :=
  {| Store.pairKey := pairKey st;
     Store.scores := read (objects st) (scores_ref st);
     Store.resources := resource_value (objects st) <$> resources st;
     Store.resourceName := resourceName st;
     Store.localStorage := localStorage st |}.

(** Every reference of the state points into the object store. *)
Definition closed (st : State) : Prop :=
  (scores_ref st < length (objects st))%nat ∧
  Forall (λ r, (scores r < length (objects st))%nat) (resources st).

(** No saved resource shares its [scores] object with the state. *)
Definition separate (st : State) : Prop :=
  Forall (λ r, scores r ≠ scores_ref st) (resources st).

Section heap.
Context `{codec : !JsonCodec}.

(** [saveAll(next)]; [JSON.stringify] reads the objects. *)
Definition saveAll (next : list Saved) (st : State) : State :=
  {| objects := objects st; pairKey := pairKey st; scores_ref := scores_ref st;
     resources := next;
     resourceName := resourceName st;
     localStorage :=
       setItem "resourcesV1"
         (JSON_stringify
            (Store.resources_to_json (resource_value (objects st) <$> next)))
         (localStorage st) |}.

(** [saveCurrentResource()]. *)
Definition saveCurrentResource (src : Store.IdSource) (st : State) : State :=
  let name :=
    or_string (Some (trim (resourceName st)))
              ("Resource " +:+ pretty (length (resources st) + 1)%nat) in
  let '(h, copy) := spread (scores_ref st) (objects st) in
  let r := {| id := Store.newId src; name := name; scores := copy |} in
  let next := resources st ++ [r] in
  let st' := saveAll next
    {| objects := h; pairKey := pairKey st; scores_ref := scores_ref st;
       resources := resources st; resourceName := resourceName st;
       localStorage := localStorage st |} in
  {| objects := objects st'; pairKey := pairKey st'; scores_ref := scores_ref st';
     resources := resources st'; resourceName := "";
     localStorage := localStorage st' |}.

(** [deleteResource(id)]. *)
Definition deleteResource (i : string) (st : State) : State :=
  saveAll (filter (λ r, id r ≠ i) (resources st)) st.

End heap.

(** [setScores((s) => ({ ...s, [k]: n }))]: the state gets a new object. *)
Definition setScores (k : string) (n : Z) (st : State) : State :=
  let '(h, s') := spread_with (scores_ref st) k n (objects st) in
  {| objects := h; pairKey := pairKey st; scores_ref := s';
     resources := resources st; resourceName := resourceName st;
     localStorage := localStorage st |}.

(** A sequence of slider moves. *)
Definition setScoresMany (updates : list (string * Z)) (st : State) : State :=
  foldl (λ st' kn, setScores kn.1 kn.2 st') st updates.

(** The state after the first render, given the resources read from the
    storage: the initial scores and every parsed [scores] are objects of
    their own. *)
Definition start (rs : list SavedResource.t) (ls : gmap string string) : State :=
  {| objects := Store.initialScores :: (SavedResource.scores <$> rs);
     pairKey := Engine.RAID;
     scores_ref := 0%nat;
     resources :=
       imap (λ i r, {| id := SavedResource.id r; name := SavedResource.name r;
                       scores := S i |}) rs;
     resourceName := "";
     localStorage := ls |}.

End Heap.

(** ** A reference JSON codec

    The compact text [JSON.stringify] produces for a value, and a parser of
    that language: no white space between tokens, integers only, and of the
    [\u] escapes only those of the control characters.  It gives the laws
    of [JsonCodec] a model. *)

Module RefCodec.
Import Js.

Definition dquote : Ascii.ascii := "034"%char.
Definition backslash : Ascii.ascii := "092"%char.

(** Lower-case hexadecimal digit of a number below 16. *)
Definition hex (n : N) : Ascii.ascii :=
  Ascii.ascii_of_N (if (n <? 10)%N then 48 + n else 87 + n)%N.

Definition unhex (c : Ascii.ascii) : option N :=
  let n := Ascii.N_of_ascii c in
  if (48 <=? n)%N && (n <=? 57)%N then Some (n - 48)%N
  else if (97 <=? n)%N && (n <=? 102)%N then Some (n - 87)%N
  else None.

(** The letter of a two-character escape, for the characters that have one. *)
Definition short_escape (c : Ascii.ascii) : option Ascii.ascii :=
  let n := Ascii.N_of_ascii c in
  if decide (c = dquote) then Some dquote
  else if decide (c = backslash) then Some backslash
  else if (n =? 8)%N then Some "b"%char
  else if (n =? 9)%N then Some "t"%char
  else if (n =? 10)%N then Some "n"%char
  else if (n =? 12)%N then Some "f"%char
  else if (n =? 13)%N then Some "r"%char
  else None.

Definition short_unescape (e : Ascii.ascii) : option Ascii.ascii :=
  if decide (e = dquote) then Some dquote
  else if decide (e = backslash) then Some backslash
  else if decide (e = "/"%char) then Some "/"%char
  else if decide (e = "b"%char) then Some "008"%char
  else if decide (e = "t"%char) then Some "009"%char
  else if decide (e = "n"%char) then Some "010"%char
  else if decide (e = "f"%char) then Some "012"%char
  else if decide (e = "r"%char) then Some "013"%char
  else None.

(** The characters of a string literal, followed by [k]. *)
Fixpoint show_chars (s : string) (k : string) : string :=
  match s with
  | "" => k
  | String c s' =>
      match short_escape c with
      | Some e => String backslash (String e (show_chars s' k))
      | None =>
          let n := Ascii.N_of_ascii c in
          if (n <? 32)%N then
            String backslash (String "u" (String "0" (String "0"
              (String (hex (n / 16)) (String (hex (n mod 16)) (show_chars s' k))))))
          else String c (show_chars s' k)
      end
  end.

Definition show_string (s : string) (k : string) : string :=
  String dquote (show_chars s (String dquote k)).

Fixpoint show_uint (d : Decimal.uint) (k : string) : string :=
  match d with
  | Decimal.Nil => k
  | Decimal.D0 d => String "0" (show_uint d k)
  | Decimal.D1 d => String "1" (show_uint d k)
  | Decimal.D2 d => String "2" (show_uint d k)
  | Decimal.D3 d => String "3" (show_uint d k)
  | Decimal.D4 d => String "4" (show_uint d k)
  | Decimal.D5 d => String "5" (show_uint d k)
  | Decimal.D6 d => String "6" (show_uint d k)
  | Decimal.D7 d => String "7" (show_uint d k)
  | Decimal.D8 d => String "8" (show_uint d k)
  | Decimal.D9 d => String "9" (show_uint d k)
  end.

Definition show_int (d : Decimal.int) (k : string) : string :=
  match d with
  | Decimal.Pos d => show_uint d k
  | Decimal.Neg d => String "-" (show_uint d k)
  end.

(** The serialisation of [v], followed by [k]. *)
Fixpoint show (v : json) (k : string) : string :=
  match v with
  | JNull => "null" +:+ k
  | JBool true => "true" +:+ k
  | JBool false => "false" +:+ k
  | JNum n => show_int (Z.to_int n) k
  | JStr s => show_string s k
  | JArr l =>
      String "[" match l with
      | [] => String "]" k
      | x :: l' =>
          show x ((fix tail (l : list json) : string :=
                     match l with
                     | [] => String "]" k
                     | y :: l'' => String "," (show y (tail l''))
                     end) l')
      end
  | JObj l =>
      String "{" match l with
      | [] => String "}" k
      | (key, x) :: l' =>
          show_string key (String ":" (show x
            ((fix tail (l : list (string * json)) : string :=
                match l with
                | [] => String "}" k
                | (key', y) :: l'' =>
                    String "," (show_string key' (String ":" (show y (tail l''))))
                end) l')))
      end
  end.

Definition stringify (v : json) : string := show v "".

(** The digit a character is, as the constructor of [Decimal.uint]. *)
Definition digit (c : Ascii.ascii) : option (Decimal.uint → Decimal.uint) :=
  if decide (c = "0"%char) then Some Decimal.D0
  else if decide (c = "1"%char) then Some Decimal.D1
  else if decide (c = "2"%char) then Some Decimal.D2
  else if decide (c = "3"%char) then Some Decimal.D3
  else if decide (c = "4"%char) then Some Decimal.D4
  else if decide (c = "5"%char) then Some Decimal.D5
  else if decide (c = "6"%char) then Some Decimal.D6
  else if decide (c = "7"%char) then Some Decimal.D7
  else if decide (c = "8"%char) then Some Decimal.D8
  else if decide (c = "9"%char) then Some Decimal.D9
  else None.

(** The longest prefix of digits, and what follows it. *)
Fixpoint read_uint (s : string) : Decimal.uint * string :=
  match s with
  | "" => (Decimal.Nil, "")
  | String c r =>
      match digit c with
      | Some D => let '(d, r') := read_uint r in (D d, r')
      | None => (Decimal.Nil, s)
      end
  end.

Definition read_int (s : string) : option (Z * string) :=
  match s with
  | "" => None
  | String c r =>
      if decide (c = "-"%char) then
        match read_uint r with
        | (Decimal.Nil, _) => None
        | (d, r') => Some (Z.of_int (Decimal.Neg d), r')
        end
      else
        match read_uint s with
        | (Decimal.Nil, _) => None
        | (d, r') => Some (Z.of_int (Decimal.Pos d), r')
        end
  end.

(** The characters of a string literal up to its closing quote. *)
Fixpoint read_chars (s : string) : option (string * string) :=
  match s with
  | "" => None
  | String c r =>
      if decide (c = dquote) then Some ("", r)
      else if decide (c = backslash) then
        match r with
        | "" => None
        | String e r1 =>
            match short_unescape e with
            | Some c' =>
                match read_chars r1 with
                | Some (x, r') => Some (String c' x, r')
                | None => None
                end
            | None =>
                match r1 with
                | String z1 (String z2 (String h1 (String h2 r2))) =>
                    if decide (e = "u"%char ∧ z1 = "0"%char ∧ z2 = "0"%char) then
                      match unhex h1, unhex h2, read_chars r2 with
                      | Some a, Some b, Some (x, r') =>
                          Some (String (Ascii.ascii_of_N (16 * a + b)) x, r')
                      | _, _, _ => None
                      end
                    else None
                | _ => None
                end
            end
        end
      else if (Ascii.N_of_ascii c <? 32)%N then None
      else
        match read_chars r with
        | Some (x, r') => Some (String c x, r')
        | None => None
        end
  end.

Definition is_numchar (c : Ascii.ascii) : bool :=
  bool_decide (c = "-"%char) || bool_decide (is_Some (digit c)).

Fixpoint read_value (fuel : nat) (s : string) : option (json * string) :=
  match fuel with
  | O => None
  | S fuel =>
      match s with
      | "" => None
      | String c r =>
          if is_numchar c then
            match read_int s with
            | Some (n, r') => Some (JNum n, r')
            | None => None
            end
          else if decide (c = dquote) then
            match read_chars r with
            | Some (x, r') => Some (JStr x, r')
            | None => None
            end
          else if decide (c = "["%char) then
            match r with
            | "" => None
            | String c' r' =>
                if decide (c' = "]"%char) then Some (JArr [], r')
                else
                  match read_elements fuel r with
                  | Some (l, r'') => Some (JArr l, r'')
                  | None => None
                  end
            end
          else if decide (c = "{"%char) then
            match r with
            | "" => None
            | String c' r' =>
                if decide (c' = "}"%char) then Some (JObj [], r')
                else
                  match read_members fuel r with
                  | Some (l, r'') => Some (JObj l, r'')
                  | None => None
                  end
            end
          else if decide (c = "n"%char) then
            match strip_prefix "ull" r with
            | Some r' => Some (JNull, r')
            | None => None
            end
          else if decide (c = "t"%char) then
            match strip_prefix "rue" r with
            | Some r' => Some (JBool true, r')
            | None => None
            end
          else if decide (c = "f"%char) then
            match strip_prefix "alse" r with
            | Some r' => Some (JBool false, r')
            | None => None
            end
          else None
      end
  end
with read_elements (fuel : nat) (s : string) : option (list json * string) :=
  match fuel with
  | O => None
  | S fuel =>
      match read_value fuel s with
      | Some (v, String c r) =>
          if decide (c = ","%char) then
            match read_elements fuel r with
            | Some (l, r') => Some (v :: l, r')
            | None => None
            end
          else if decide (c = "]"%char) then Some ([v], r)
          else None
      | _ => None
      end
  end
with read_members (fuel : nat) (s : string) : option (list (string * json) * string) :=
  match fuel with
  | O => None
  | S fuel =>
      match s with
      | String q r =>
          if decide (q = dquote) then
            match read_chars r with
            | Some (key, String colon r1) =>
                if decide (colon = ":"%char) then
                  match read_value fuel r1 with
                  | Some (v, String c r2) =>
                      if decide (c = ","%char) then
                        match read_members fuel r2 with
                        | Some (l, r') => Some ((key, v) :: l, r')
                        | None => None
                        end
                      else if decide (c = "}"%char) then Some ([(key, v)], r2)
                      else None
                  | _ => None
                  end
                else None
            | _ => None
            end
          else None
      | "" => None
      end
  end.

(** The fuel that suffices to read a value back. *)
Fixpoint weight (v : json) : nat :=
  match v with
  | JArr l => S ((fix sum (l : list json) : nat :=
                    match l with [] => O | x :: l' => S (weight x + sum l') end) l)
  | JObj l => S ((fix sum (l : list (string * json)) : nat :=
                    match l with [] => O | kv :: l' => S (weight kv.2 + sum l') end) l)
  | _ => 1%nat
  end.

(** What follows the first element of an array, and the first member of an
    object, in [show]. *)
Definition show_tail (k : string) : list json → string :=
  fix tail (l : list json) : string :=
    match l with
    | [] => String "]" k
    | y :: l'' => String "," (show y (tail l''))
    end.

Definition show_mtail (k : string) : list (string * json) → string :=
  fix tail (l : list (string * json)) : string :=
    match l with
    | [] => String "}" k
    | (key', y) :: l'' =>
        String "," (show_string key' (String ":" (show y (tail l''))))
    end.

Definition weight_list : list json → nat :=
  fix sum (l : list json) : nat :=
    match l with [] => O | x :: l' => S (weight x + sum l') end.

Definition weight_members : list (string * json) → nat :=
  fix sum (l : list (string * json)) : nat :=
    match l with [] => O | kv :: l' => S (weight kv.2 + sum l') end.

(** [JSON.parse]: the whole text must be one value. *)
Definition parse (s : string) : outcome json :=
  match read_value (S (String.length s)) s with
  | Some (v, "") => Returned v
  | _ => Thrown "SyntaxError"
  end.

(** A text that does not go on with a digit. *)
Definition no_digit (k : string) : Prop :=
  match k with "" => True | String c _ => digit c = None end.

(** The statement of the round trip for one value, at every fuel that
    covers its weight. *)
Definition reads_back (v : json) : Prop :=
  ∀ fuel k, (weight v ≤ fuel)%nat → no_digit k →
    read_value fuel (show v k) = Some (v, k).

(** A value is at least as long as it is heavy. *)
Definition long_enough (v : json) : Prop :=
  ∀ k, (weight v + String.length k ≤ String.length (show v k))%nat.

End RefCodec.

(** ** Scale descriptors and the slider row *)

Module Scale.
Import Js.

(** Descriptors shown when a slider is exactly 3 (the "moderate" middle). *)
Definition MID_AXIS_TEXT : gmap string string :=
  list_to_map
  [ ("Relevance", "Somewhat relevant: usable with minor adaptation, won’t reliably meet the full cohort.");
    ("Alignment", "Partially aligned: hits some outcomes/strategies, but needs mapping or adaptation.");
    ("Effectiveness", "Inconsistent outcomes: works for some learners/contexts; needs scaffolds or PD for reliability.");
    ("Impact", "Patchy ripple effects: some positive change, limited in scale or duration.");
    ("Sustainability", "Continues with active effort or specific people; not yet embedded or budget-proof.");
    ("Coherence", "Fits some initiatives, awkward with others; overlaps exist, integration incomplete.") ].

(** Scale descriptors; the inner objects have the keys 1..5. *)
Definition SCALE : gmap string (gmap Z string) :=
  list_to_map
  [
    ("Relevance", list_to_map
      [ (1, "Very Low – Does not meet student or teacher needs.");
        (2, "Low – Generic; not tailored to our context.");
        (3, "Moderate – Somewhat relevant; usable with minor adaptation, but not a perfect fit for all cohorts.");
        (4, "High – Meets needs; adaptable and valued.");
        (5, "Very High – Highly relevant and transformative.") ]);
    ("Alignment", list_to_map
      [ (1, "Very Low – No connection to curriculum/system.");
        (2, "Low – Loose links; significant gaps.");
        (3, "Moderate – Partial links to curriculum or priorities; usable but needs adaptation.");
        (4, "High – Well aligned to curriculum and strategy.");
        (5, "Very High – Strongly aligned across plans and goals.") ]);
    ("Effectiveness", list_to_map
      [ (1, "Very Low – Fails to achieve intended outcomes.");
        (2, "Low – Limited outcomes; weak/anecdotal evidence.");
        (3, "Moderate – Achieves outcomes for some learners/contexts; not reliably across classes.");
        (4, "High – Consistently achieves most outcomes.");
        (5, "Very High – Strong results across diverse learners.") ]);
    ("Impact", list_to_map
      [ (1, "Very Low – No wider/lasting change.");
        (2, "Low – Minimal, short-term impact.");
        (3, "Moderate – Some broader change, but limited in scale or duration.");
        (4, "High – Clear, positive change across cohorts.");
        (5, "Very High – Transformational, sustained school-wide change.") ]);
    ("Sustainability", list_to_map
      [ (1, "Very Low – One-off/individual-dependent; fades quickly.");
        (2, "Low – Fragile; vulnerable to staff/budget changes.");
        (3, "Moderate – Continues with active effort/specific people; not yet embedded or budget-proof.");
        (4, "High – Embedded in routines, capability, resourcing.");
        (5, "Very High – Structures and funding ensure longevity.") ]);
    ("Coherence", list_to_map
      [ (1, "Very Low – Conflicts; duplicates or confuses.");
        (2, "Low – Weak alignment; friction with initiatives.");
        (3, "Moderate – Fits some initiatives; overlaps/awkwardness remain without integration.");
        (4, "High – Well integrated; complements priorities.");
        (5, "Very High – Strong synergy across school/system.") ]) ].

(** Deeper definitions (shown on toggle). *)
Definition FULL_DEFS : gmap string string :=
  list_to_map
  [ ("Relevance",
     "Does the resource respond to the needs of our students/teachers and remain responsive as circumstances change (curriculum shifts, cohort changes)?");
    ("Alignment",
     "How explicitly does the resource map to curriculum outcomes, school improvement priorities, and system directions (internal and external)?");
    ("Effectiveness",
     "To what extent are intended outcomes achieved (with attention to different groups of learners)?");
    ("Impact",
     "What higher-level, lasting effects (intended/unintended) occur beyond immediate outcomes—e.g., culture, pathways, community confidence?");
    ("Sustainability",
     "Will benefits continue over time? Consider institutional, financial, social, political, and environmental conditions, plus risks and trade-offs.");
    ("Coherence",
     "How well does this fit with other initiatives (complementarity, avoiding contradictions/duplication) across faculties and system programs?") ].

(** [a || b] on values that are a string or [undefined]/[null]: the empty
    string is falsy too. *)
Definition or_value (a b : option string) : option string :=
  match a with
  | Some (String c s) => Some (String c s)
  | Some "" | None => b
  end.

(** The texts a [SliderRow] renders: [descriptor] and [full]; [None] is
    [undefined], which renders as nothing. *)
Record SliderTexts := { descriptor : option string; full : option string }.

(** The property names every object literal inherits from
    [Object.prototype]: for these [SCALE[label]] is not [undefined] although
    the table has no such row.  The tables below hold own properties only,
    so what is proved about a label outside the tables excludes these. *)
Definition inherited : list string :=
  [ "constructor"; "toString"; "toLocaleString"; "valueOf"; "hasOwnProperty";
    "isPrototypeOf"; "propertyIsEnumerable"; "__proto__"; "__defineGetter__";
    "__defineSetter__"; "__lookupGetter__"; "__lookupSetter__" ].

(** The body of [SliderRow] up to its [return]:
    [base = SCALE[label][value]], [mid = value === 3 ? MID_AXIS_TEXT[label] : null],
    [descriptor = mid || base], [full = FULL_DEFS[label]].  Reading
    [SCALE[label][value]] throws when [SCALE[label]] is [undefined]. *)
Definition SliderRow (label : string) (value : Z) : outcome SliderTexts :=
  match SCALE !! label with
  | None => Thrown "TypeError"
  | Some tiers =>
      let base := tiers !! value in
      let mid := if value =? 3 then MID_AXIS_TEXT !! label else None in
      Returned {| descriptor := or_value mid base; full := FULL_DEFS !! label |}
  end.

(** The descriptor a slider row shows; [None] when nothing is shown or the
    row fails to render. *)
Definition shown (row : outcome SliderTexts) : option string :=
  match row with
  | Returned t => descriptor t
  | Thrown _ => None
  end.

End Scale.

(** The scale of the first revision: other texts at rating 3, and no
    separate text for the middle. *)
Module LegacyScale.
Import Js.

Definition SCALE : gmap string (gmap Z string) :=
  list_to_map
  [
    ("Relevance", list_to_map
      [ (1, "Very Low – Does not meet student or teacher needs.");
        (2, "Low – Generic; not tailored to our context.");
        (3, "Moderate – Some relevance; limited adaptability.");
        (4, "High – Meets needs; adaptable and valued.");
        (5, "Very High – Highly relevant and transformative.") ]);
    ("Alignment", list_to_map
      [ (1, "Very Low – No connection to curriculum/system.");
        (2, "Low – Loose links; significant gaps.");
        (3, "Moderate – Partially aligned; needs adaptation.");
        (4, "High – Well aligned to curriculum and strategy.");
        (5, "Very High – Strongly aligned across plans and goals.") ]);
    ("Effectiveness", list_to_map
      [ (1, "Very Low – Fails to achieve intended outcomes.");
        (2, "Low – Limited outcomes; weak/anecdotal evidence.");
        (3, "Moderate – Some outcomes; varies by class/group.");
        (4, "High – Consistently achieves most outcomes.");
        (5, "Very High – Strong results across diverse learners.") ]);
    ("Impact", list_to_map
      [ (1, "Very Low – No wider/lasting change.");
        (2, "Low – Minimal, short-term impact.");
        (3, "Moderate – Some broader change; limited scale/duration.");
        (4, "High – Clear, positive change across cohorts.");
        (5, "Very High – Transformational, sustained school-wide change.") ]);
    ("Sustainability", list_to_map
      [ (1, "Very Low – One-off/individual-dependent; fades quickly.");
        (2, "Low – Fragile; vulnerable to staff/budget changes.");
        (3, "Moderate – Needs ongoing effort/external support.");
        (4, "High – Embedded in routines, capability, resourcing.");
        (5, "Very High – Structures and funding ensure longevity.") ]);
    ("Coherence", list_to_map
      [ (1, "Very Low – Conflicts; duplicates or confuses.");
        (2, "Low – Weak alignment; friction with initiatives.");
        (3, "Moderate – Fits some efforts; awkward with others.");
        (4, "High – Well integrated; complements priorities.");
        (5, "Very High – Strong synergy across school/system.") ]) ].

(** [descriptor = SCALE[label][value]], [full = FULL_DEFS[label]]. *)
Definition SliderRow (label : string) (value : Z) : outcome Scale.SliderTexts :=
  match SCALE !! label with
  | None => Thrown "TypeError"
  | Some tiers =>
      Returned {| Scale.descriptor := tiers !! value;
                  Scale.full := Scale.FULL_DEFS !! label |}
  end.

End LegacyScale.

(** ** The plot area and the colours of the points *)

Module PlotArea.
Import Plot.

(** A [<rect>] of [Grid]. *)
Record Rect := {
  rect_x : float; rect_y : float; rect_width : float; rect_height : float;
  rect_fill : string;
}.

(** The four shaded cells of [Grid], in the order of the source: top left,
    top right, bottom left, bottom right. *)
Definition rects (compact : bool) : list Rect :=
  [ {| rect_x := padding; rect_y := padding;
       rect_width := (plotW compact / 2)%float;
       rect_height := (plotH compact / 2)%float; rect_fill := "#f8fafc" |};
    {| rect_x := (padding + plotW compact / 2)%float; rect_y := padding;
       rect_width := (plotW compact / 2)%float;
       rect_height := (plotH compact / 2)%float; rect_fill := "#f1f5f9" |};
    {| rect_x := padding; rect_y := (padding + plotH compact / 2)%float;
       rect_width := (plotW compact / 2)%float;
       rect_height := (plotH compact / 2)%float; rect_fill := "#f1f5f9" |};
    {| rect_x := (padding + plotW compact / 2)%float;
       rect_y := (padding + plotH compact / 2)%float;
       rect_width := (plotW compact / 2)%float;
       rect_height := (plotH compact / 2)%float; rect_fill := "#e2e8f0" |} ].

(** The point lies in the cell, borders included. *)
Definition covers (r : Rect) (p : Pos) : bool :=
  ((rect_x r <=? cx p) && (cx p <=? rect_x r + rect_width r)
   && (rect_y r <=? cy p) && (cy p <=? rect_y r + rect_height r))%float.

(** The position in [rects] of the cell of a quadrant: Y high is the top
    row, X high the right column. *)
Definition cellOf (yHigh xHigh : bool) : nat :=
  match yHigh, xHigh with
  | true, false => 0
  | true, true => 1
  | false, false => 2
  | false, true => 3
  end%nat.

(** The [fill] of the [i]-th saved circle of [Grid]:
    [p.color || COLORS[i % COLORS.length]]. *)
Definition fillOf (i : nat) (p : Point) : option string :=
  Scale.or_value (pt_color p) (Store.COLORS !! (i `mod` length Store.COLORS)%nat).

(** The colour of the dot before the [idx]-th entry of the list of saved
    resources: [COLORS[idx % COLORS.length]]. *)
Definition legendColor (idx : nat) : option string :=
  Store.COLORS !! (idx `mod` length Store.COLORS)%nat.

End PlotArea.

(** ** A session of the app: the events a user causes *)

Module Session.
Import Js Store.

Inductive Event :=
  | Slide (criterion : string) (n : Z)
  | TypeName (v : string)
  | SwitchTab (v : Engine.PairKey)
  | ClickSave (src : IdSource)
  | ClickDelete (id : string).

(** What the sliders can send: the criterion of an axis of a pair, and a
    value of the range input ([min] 1, [max] 5, [step] 1). *)
Definition from_slider (e : Event) : Prop :=
  match e with
  | Slide c n => c ∈ criteria ∧ 1 ≤ n ≤ 5
  | _ => True
  end.

(** All six criteria are rated, from 1 to 5. *)
Definition rated (s : gmap string Z) : Prop :=
  ∀ c, c ∈ criteria → ∃ n, s !! c = Some n ∧ 1 ≤ n ≤ 5.

Definition well_rated (st : State) : Prop :=
  rated (scores st) ∧ Forall (λ r, rated (SavedResource.scores r)) (resources st).

Section session.
Context `{codec : !JsonCodec}.

(** The handler of an event. *)
Definition step (st : State) (e : Event) : State :=
  match e with
  | Slide c n => setScores c n st
  | TypeName v => setResourceName v st
  | SwitchTab v => setPairKey v st
  | ClickSave src => saveCurrentResource src st
  | ClickDelete id => deleteResource id st
  end.

Definition run (events : list Event) (st : State) : State :=
  foldl step st events.

(** The resources a restart of the page would start with. *)
Definition stored (ls : gmap string string) : option (list SavedResource.t) :=
  match load ls with
  | Returned v => json_to_resources v
  | Thrown _ => None
  end.

(** The storage holds the list the state holds. *)
Definition persisted (st : State) : Prop :=
  stored (localStorage st) = Some (resources st).

End session.

(** The tab panel of pair [p] as rendered while [pairKey] is active: the
    name of [quad], the quadrant of the active pair, and the paragraph
    under it.  [None] when a rating is missing or [quad] is [undefined]. *)
Definition panelView (p : Engine.Pair) (st : State) : option (string * string) :=
  active ← pair st;
  xVal ← scores st !! Engine.pair_x active;
  yVal ← scores st !! Engine.pair_y active;
  quad ← Engine.useQuadrant (Engine.key active) xVal yVal;
  x ← scores st !! Engine.pair_x p;
  y ← scores st !! Engine.pair_y p;
  Some (Engine.name quad, Engine.panelText quad (Engine.key p) x y).

(** The text line of the summary card of pair [p]. *)
Definition summaryView (p : Engine.Pair) (st : State) : option (string * string) :=
  x ← scores st !! Engine.pair_x p;
  y ← scores st !! Engine.pair_y p;
  Engine.summaryText (Engine.key p) x y.

End Session.

(** A session on the store with its objects. *)
Module HeapSession.
Import Js Heap.

Section heap_session.
Context `{codec : !JsonCodec}.

Definition step (st : State) (e : Session.Event) : State :=
  match e with
  | Session.Slide c n => setScores c n st
  | Session.TypeName v =>
      {| objects := objects st; pairKey := pairKey st;
         scores_ref := scores_ref st; resources := resources st;
         resourceName := v; localStorage := localStorage st |}
  | Session.SwitchTab v =>
      {| objects := objects st; pairKey := v;
         scores_ref := scores_ref st; resources := resources st;
         resourceName := resourceName st; localStorage := localStorage st |}
  | Session.ClickSave src => saveCurrentResource src st
  | Session.ClickDelete id => deleteResource id st
  end.

Definition run (events : list Session.Event) (st : State) : State :=
  foldl step st events.

End heap_session.

(** The saved resources refer to objects of their own. *)
Definition unshared (st : State) : Prop :=
  closed st ∧ separate st ∧ NoDup (scores <$> resources st).

End HeapSession.

(** ** Export *)

Module Snapshot.
Import Js.

(** The pages the [while] loop of the PDF export adds, as the [y] of the
    image on each, and whether the loop has ended within [fuel] rounds:
    [while (remaining > pageHeight - 40) { pdf.addPage();
       y = 20 - (imgHeight - remaining); pdf.addImage(.., 20, y, ..);
       remaining -= (pageHeight - 40); }]. *)
Fixpoint addPages (fuel : nat) (pageHeight imgHeight remaining : float)
  : list float * bool :=
  match fuel with
  | O => ([], false)
  | S fuel' =>
      if (pageHeight - 40 <? remaining)%float then
        let y := (20 - (imgHeight - remaining))%float in
        let '(ys, ended) :=
          addPages fuel' pageHeight imgHeight (remaining - (pageHeight - 40))%float in
        (y :: ys, ended)
      else ([], true)
  end.

(** The value of [remaining] after [n] rounds of the loop. *)
Definition remainingAfter (pageHeight imgHeight : float) (n : nat) : float :=
  Nat.iter n (λ remaining, (remaining - (pageHeight - 40))%float) imgHeight.

(** What [html2canvas] resolves to: the size of the canvas, and what
    [toDataURL] returns for the two encodings. *)
Record Canvas := {
  width : float; height : float;
  png : outcome string; jpeg : outcome string;
}.

(** A file handed to the browser for download. *)
Inductive Artifact :=
  | PngFile (dataUrl : string)
  | PdfFile (imgData : string) (imgWidth imgHeight : float) (ys : list float).

(** The page as far as the export touches it: the classes of the summary
    node and the downloads started. *)
Record Dom := {
  classList : gset string;
  downloads : list (string * Artifact);
}.

(** What the collaborators give during one export: whether
    [summaryRef.current] is set, what [html2canvas] settles to, the page
    size of the PDF, and [new Date().toISOString()]. *)
Record Env := {
  node : bool;
  canvas : outcome Canvas;
  pageWidth : float; pageHeight : float;
  isoNow : string;
}.

Inductive ExportType := png_type | pdf_type.

(** [`Johari_Snapshot_${new Date().toISOString().slice(0, 10)}.ext`]. *)
Definition fileName (env : Env) (ext : string) : string :=
  "Johari_Snapshot_" +:+ String.substring 0 10 (isoNow env) +:+ ext.

(** The [try] block of [handleExport], on a DOM whose node carries the
    marker.  [None]: the loop has not ended within [fuel] rounds. *)
Definition exportBody (type : ExportType) (fuel : nat) (env : Env) (dom : Dom)
  : option (outcome unit * Dom) :=
  match canvas env with
  | Thrown e => Some (Thrown e, dom)
  | Returned c =>
      match type with
      | png_type =>
          match png c with
          | Thrown e => Some (Thrown e, dom)
          | Returned dataUrl =>
              Some (Returned (),
                    {| classList := classList dom;
                       downloads := downloads dom
                                    ++ [(fileName env ".png", PngFile dataUrl)] |})
          end
      | pdf_type =>
          match jpeg c with
          | Thrown e => Some (Thrown e, dom)
          | Returned imgData =>
              let imgWidth := (pageWidth env - 40)%float in
              let imgHeight := ((height c * imgWidth) / width c)%float in
              let '(ys, ended) := addPages fuel (pageHeight env) imgHeight imgHeight in
              if ended then
                Some (Returned (),
                      {| classList := classList dom;
                         downloads := downloads dom
                           ++ [(fileName env ".pdf",
                                PdfFile imgData imgWidth imgHeight (20%float :: ys))] |})
              else None
          end
      end
  end.

(** [handleExport(type)]: nothing without a node; otherwise the marker
    class is added, the body runs, and [finally] removes the marker. *)
Definition handleExport (type : ExportType) (fuel : nat) (env : Env) (dom : Dom)
  : option (outcome unit * Dom) :=
  if node env then
    let marked := {| classList := {["print-safe"]} ∪ classList dom;
                     downloads := downloads dom |} in
    match exportBody type fuel env marked with
    | Some (res, dom') =>
        Some (res, {| classList := classList dom' ∖ {["print-safe"]};
                      downloads := downloads dom' |})
    | None => None
    end
  else Some (Returned (), dom).

End Snapshot.

(** The export of the first revision (src/App.tsx): PNG only, no marker
    class, no [try].  It hands the node to [html2canvas] as it is, so what
    [html2canvas] settles to is kept as a function of the classes the node
    carries at that moment. *)
Module LegacySnapshot.
Import Js Snapshot.

Record Env := {
  node : bool;
  html2canvas : gset string → outcome Canvas;
  isoNow : string;
}.

(** [`Johari_Snapshot_${new Date().toISOString().slice(0,10)}.png`]. *)
Definition fileName (env : Env) : string :=
  "Johari_Snapshot_" +:+ String.substring 0 10 (isoNow env) +:+ ".png".

Definition handleExport (env : Env) (dom : Dom) : outcome unit * Dom :=
  if node env then
    match html2canvas env (classList dom) with
    | Thrown e => (Thrown e, dom)
    | Returned c =>
        match png c with
        | Thrown e => (Thrown e, dom)
        | Returned dataUrl =>
            (Returned (),
             {| classList := classList dom;
                downloads := downloads dom ++ [(fileName env, PngFile dataUrl)] |})
        end
    end
  else (Returned (), dom).

End LegacySnapshot.

(** ** A session

    The values the examples below run on. *)
Module Scenario.

(** A browser with [crypto.randomUUID], and one without. *)
Definition uuidSource : Store.IdSource :=
  {| Store.randomUUID := Some "1b4e28ba-2fa1-4d3b-a3f5-0e6c1f0d9a77";
     Store.now := 1700000000000 |}.
Definition clockSource : Store.IdSource :=
  {| Store.randomUUID := None; Store.now := 1700000000001 |}.

(** A fresh page on which a name was typed and two sliders were moved. *)
Definition page : Store.State :=
  {| Store.pairKey := Engine.RAID;
     Store.scores := <["Alignment" := 5]> (<["Relevance" := 4]> Store.initialScores);
     Store.resources := [];
     Store.resourceName := "  Literacy Pilot ";
     Store.localStorage := ∅ |}.

(** The same page with its objects: nothing saved yet. *)
Definition heapPage : Heap.State := Heap.start [] ∅.

End Scenario.

(** More values to run on. *)
Module Trial.

(** A canvas twice as tall as a page is wide, and a landscape page. *)
Definition tallCanvas : Snapshot.Canvas :=
  {| Snapshot.width := 2000%float; Snapshot.height := 3000%float;
     Snapshot.png := Js.Returned "data:image/png;base64,iVBORw0KGgo=";
     Snapshot.jpeg := Js.Returned "data:image/jpeg;base64,/9j/4AAQ" |}.

Definition exportEnv : Snapshot.Env :=
  {| Snapshot.node := true; Snapshot.canvas := Js.Returned tallCanvas;
     Snapshot.pageWidth := 842%float; Snapshot.pageHeight := 595%float;
     Snapshot.isoNow := "2025-03-14T09:26:53.589Z" |}.

Definition summaryDom : Snapshot.Dom :=
  {| Snapshot.classList := {["bg-white"; "p-6"; "rounded-2xl"; "border"; "grid"; "gap-6"]};
     Snapshot.downloads := [] |}.

(** The page as it starts on an empty storage. *)
Definition freshPage : Store.State :=
  {| Store.pairKey := Engine.RAID; Store.scores := Store.initialScores;
     Store.resources := []; Store.resourceName := "";
     Store.localStorage := ∅ |}.

(** Two slider moves, a save, a new name, a second save, a deletion. *)
Definition events : list Session.Event :=
  [ Session.Slide "Impact" 2; Session.Slide "Relevance" 3;
    Session.ClickSave Scenario.uuidSource;
    Session.TypeName "Maths kit";
    Session.ClickSave Scenario.clockSource;
    Session.ClickDelete "1700000000001" ].

(** A page with one saved resource, its "Relevance" rated 4. *)
Definition savedHeap `{!Js.JsonCodec} : Heap.State :=
  Heap.saveCurrentResource Scenario.uuidSource
    (Heap.setScores "Relevance" 4 Scenario.heapPage).

(** A page with two saved resources. *)
Definition twoSaved `{!Js.JsonCodec} : Store.State :=
  Store.saveCurrentResource Scenario.clockSource
    (Store.saveCurrentResource Scenario.uuidSource Scenario.page).

(** The first tab active with both its ratings 3, the second pair rated 5
    and 5. *)
Definition gatePage : Store.State :=
  Store.setScores "Impact" 5 (Store.setScores "Effectiveness" 5 Trial.freshPage).

Definition raid : Engine.Pair :=
  {| Engine.key := Engine.RAID; Engine.title := "Relevance vs Alignment";
     Engine.pair_x := "Alignment"; Engine.pair_y := "Relevance" |}.
Definition efim : Engine.Pair :=
  {| Engine.key := Engine.EFIM; Engine.title := "Effectiveness vs Impact";
     Engine.pair_x := "Impact"; Engine.pair_y := "Effectiveness" |}.


End Trial.

(** * Properties *)

(** ** The engine *)

Section engine_facts.
Import Engine.

Lemma geb_ge (a b : Z) : (a >=? b) = true ↔ b ≤ a.
Proof. rewrite Z.geb_leb. apply Z.leb_le. Qed.

Lemma quadrant_present (pair : PairKey) (yHigh xHigh : bool) :
  is_Some (QUADRANTS !! quadrantCode pair yHigh xHigh).
Proof. destruct pair, yHigh, xHigh; vm_compute; eauto. Qed.

Lemma quadrant_not_uncertain (pair : PairKey) (yHigh xHigh : bool) (q : QuadrantResult) :
  QUADRANTS !! quadrantCode pair yHigh xHigh = Some q → name q ≠ "Uncertain".
Proof.
  destruct pair, yHigh, xHigh; vm_compute; intros [= <-]; discriminate.
Qed.

Lemma useQuadrant_middle catalog pair : useQuadrantWith catalog pair 3 3 = Some Uncertain.
Proof. reflexivity. Qed.

Lemma useQuadrant_else (pair : PairKey) (x y : Z) :
  ¬ (x = 3 ∧ y = 3) →
  useQuadrant pair x y = QUADRANTS !! quadrantCode pair (y >=? 4) (x >=? 4).
Proof.
  intros Hne. unfold useQuadrant, useQuadrantWith.
  destruct (x =? 3) eqn:Hx, (y =? 3) eqn:Hy; simpl; try reflexivity.
  apply Z.eqb_eq in Hx, Hy. tauto.
Qed.

(** C1.  For every pair code and all ratings, [useQuadrant] returns the fixed
    "Uncertain" result exactly when both ratings are 3: as the object
    returned, and as the name of whatever is returned.  The check comes
    first and nothing else is consulted: when both ratings are 3 the result
    is the same whatever the quadrant table holds.  This holds for all
    integers, in particular for the ratings 1..5. *)
Theorem useQuadrant_uncertain_iff (pair : PairKey) (x y : Z) :
  (useQuadrant pair x y = Some Uncertain ↔ x = 3 ∧ y = 3)
  ∧ (∀ q, useQuadrant pair x y = Some q → (name q = "Uncertain" ↔ x = 3 ∧ y = 3))
  ∧ (x = 3 ∧ y = 3 → ∀ catalog, useQuadrantWith catalog pair x y = Some Uncertain).
Proof.
  assert (Hmid : x = 3 ∧ y = 3 → ∀ c, useQuadrantWith c pair x y = Some Uncertain).
  { intros [-> ->] c. apply useQuadrant_middle. }
  assert (Hname : ∀ q, useQuadrant pair x y = Some q → name q = "Uncertain" → x = 3 ∧ y = 3).
  { intros q Hq Hn. destruct (decide (x = 3 ∧ y = 3)) as [|Hne]; [done|].
    rewrite useQuadrant_else in Hq by done.
    by apply quadrant_not_uncertain in Hq. }
  split_and!; [split| |done].
  - intros Hq. by apply (Hname _ Hq).
  - intros H. by apply Hmid.
  - intros q Hq. split; [by apply Hname|].
    intros H. rewrite (Hmid H QUADRANTS : useQuadrant pair x y = _) in Hq.
    by injection Hq as <-.
Qed.

Lemma quadrantsOf_spec (pair : PairKey) :
  length (quadrantsOf pair) = 4%nat ∧ NoDup (quadrantsOf pair)
  ∧ ∀ yHigh xHigh q, QUADRANTS !! quadrantCode pair yHigh xHigh = Some q → q ∈ quadrantsOf pair.
Proof.
  split_and!.
  - by destruct pair.
  - destruct pair; compute_done.
  - intros yH xH q. destruct pair, yH, xH; intros Hq; vm_compute in Hq; simplify_eq; compute_done.
Qed.

Lemma quadrant_keys (k : string) (q : QuadrantResult) :
  QUADRANTS !! k = Some q →
  ∃ pair yHigh xHigh, k = quadrantCode pair yHigh xHigh.
Proof.
  intros Hk. unfold QUADRANTS in Hk. apply elem_of_list_to_map_2 in Hk.
  repeat (apply elem_of_cons in Hk as [Hk|Hk];
          [injection Hk as -> _;
           first [ by exists RAID, true, true | by exists RAID, true, false
                 | by exists RAID, false, true | by exists RAID, false, false
                 | by exists EFIM, true, true | by exists EFIM, true, false
                 | by exists EFIM, false, true | by exists EFIM, false, false
                 | by exists SUCO, true, true | by exists SUCO, true, false
                 | by exists SUCO, false, true | by exists SUCO, false, false ]|]).
  by apply elem_of_nil in Hk.
Qed.

Lemma quadrant_of_pair (pair p : PairKey) (yHigh xHigh : bool) (q : QuadrantResult) :
  QUADRANTS !! quadrantCode p yHigh xHigh = Some q →
  (q ∈ quadrantsOf pair
   ↔ String.prefix (key_string pair +:+ "_") (quadrantCode p yHigh xHigh) = true).
Proof.
  intros Hq.
  assert (Hb : bool_decide (q ∈ quadrantsOf pair)
               = String.prefix (key_string pair +:+ "_") (quadrantCode p yHigh xHigh)).
  { destruct pair, p, yHigh, xHigh; vm_compute in Hq; injection Hq as <-;
      vm_compute; reflexivity. }
  rewrite <- Hb. symmetry. apply bool_decide_eq_true.
Qed.

Lemma quadrant_bits (pair : PairKey) (yHigh xHigh yHigh' xHigh' : bool) :
  QUADRANTS !! quadrantCode pair yHigh' xHigh' = QUADRANTS !! quadrantCode pair yHigh xHigh →
  xHigh' = xHigh ∧ yHigh' = yHigh.
Proof.
  destruct pair, yHigh, xHigh, yHigh', xHigh'; vm_compute; intros H;
    first [done | discriminate H].
Qed.

(** C2.  For every pair code and all ratings that are not both 3,
    [useQuadrant] returns an entry of the quadrant table: the one under the
    key made of the pair code, an underscore, the letter of the Y-axis bit
    [y >= 4] and then the letter of the X-axis bit [x >= 4] (H for a set
    bit, L otherwise), whose name is the one the table gives for that pair
    and those two bits.  It is one of the four entries of that pair, which
    are four distinct entries and are the entries whose key begins with the
    pair code; two rating pairs get the same entry exactly when they have
    the same two bits; all 12 codes are keys of the table, which has no
    other key, so the lookup never fails. *)
Theorem useQuadrant_catalog (pair : PairKey) (x y : Z) :
  ¬ (x = 3 ∧ y = 3) →
  (∃ q, useQuadrant pair x y = Some q
        ∧ QUADRANTS !! quadrantCode pair (y >=? 4) (x >=? 4) = Some q
        ∧ q ∈ quadrantsOf pair
        ∧ QUADRANTS !! (match pair with
                        | RAID => "RAID" | EFIM => "EFIM" | SUCO => "SUCO"
                        end
                        +:+ "_" +:+ (if y >=? 4 then "H" else "L")
                        +:+ (if x >=? 4 then "H" else "L")) = Some q
        ∧ name q
          = match pair, y >=? 4, x >=? 4 with
            | RAID, true, true => "Sweet Spot"
            | RAID, true, false => "Hidden Gems"
            | RAID, false, true => "Box-Tickers"
            | RAID, false, false => "Misfits"
            | EFIM, true, true => "Game-Changers"
            | EFIM, true, false => "Efficient Tools"
            | EFIM, false, true => "Catalysts"
            | EFIM, false, false => "Ineffectual"
            | SUCO, true, true => "Strategic Anchors"
            | SUCO, true, false => "Stubborn Survivors"
            | SUCO, false, true => "Short-Lived Allies"
            | SUCO, false, false => "Dead Ends"
            end)
  ∧ length (quadrantsOf pair) = 4%nat ∧ NoDup (quadrantsOf pair)
  ∧ (∀ x' y', ¬ (x' = 3 ∧ y' = 3) →
       (x' >=? 4) = (x >=? 4) → (y' >=? 4) = (y >=? 4) →
       useQuadrant pair x' y' = useQuadrant pair x y)
  ∧ (∀ p yHigh xHigh, is_Some (QUADRANTS !! quadrantCode p yHigh xHigh))
  ∧ size QUADRANTS = 12%nat
  ∧ (∀ k q', QUADRANTS !! k = Some q' →
       (q' ∈ quadrantsOf pair
        ↔ String.prefix (match pair with
                         | RAID => "RAID" | EFIM => "EFIM" | SUCO => "SUCO"
                         end +:+ "_") k = true))
  ∧ (∀ x' y', ¬ (x' = 3 ∧ y' = 3) →
       useQuadrant pair x' y' = useQuadrant pair x y →
       (x' >=? 4) = (x >=? 4) ∧ (y' >=? 4) = (y >=? 4)).
Proof.
  intros Hne. destruct (quadrantsOf_spec pair) as (Hlen & Hnd & Hin).
  split_and!; try done.
  - destruct (quadrant_present pair (y >=? 4) (x >=? 4)) as [q Hq].
    exists q. rewrite useQuadrant_else by done.
    split_and!; [done|done|by eapply Hin| |];
      revert Hq; destruct pair, (y >=? 4), (x >=? 4); intros Hq;
      first [exact Hq | vm_compute in Hq; by injection Hq as <-].
  - intros x' y' Hne' Hx Hy. rewrite !useQuadrant_else by done. by rewrite Hx, Hy.
  - apply quadrant_present.
  - intros k q' Hk. destruct (quadrant_keys k q' Hk) as (p & yH & xH & ->).
    rewrite (quadrant_of_pair pair p yH xH q' Hk). by destruct pair.
  - intros x' y' Hne'. rewrite !useQuadrant_else by done. apply quadrant_bits.
Qed.
End engine_facts.

Section coach_facts.
Import Engine.

Lemma coach_present (p : PairKey) : is_Some (MID_EDGE_COACH !! key_string p).
Proof. destruct p; vm_compute; eauto. Qed.

Lemma nullish_None {A} (b : A) : nullish None b = b.
Proof. reflexivity. Qed.

Lemma nullish_Some {A} (a b : A) : nullish (Some a) b = a.
Proof. reflexivity. Qed.

Lemma useQuadrant_defined (p : PairKey) (x y : Z) : is_Some (useQuadrant p x y).
Proof.
  destruct (decide (x = 3 ∧ y = 3)) as [[-> ->]|Hne]; [by eexists|].
  rewrite useQuadrant_else by done. apply quadrant_present.
Qed.

(** C3.  With threshold 4, [getEdgeCoach] applies its rules in order, the
    first that matches deciding: [y = 3] and [x >= 4] gives the pair's
    [y3_x4plus] advisory; else [y >= 4] and [x = 3] gives [y4plus_x3]; else
    [y = 3] and [x = 3] gives [y3_x3]; otherwise it returns [null].  When it
    returns [null] the caller shows the description of the quadrant result
    in its place, in the tab panel and in the summary card; when it returns
    an advisory the caller shows the advisory instead. *)
Theorem getEdgeCoach_rules (p : PairKey) (x y : Z) :
  ∃ coach, MID_EDGE_COACH !! key_string p = Some coach
  ∧ getEdgeCoach p x y 4 =
      (if decide (y = 3 ∧ 4 ≤ x) then Some (y3_x4plus coach)
       else if decide (4 ≤ y ∧ x = 3) then Some (y4plus_x3 coach)
       else if decide (y = 3 ∧ x = 3) then Some (y3_x3 coach)
       else None)
  ∧ (getEdgeCoach p x y 4 = None ↔ ¬ (y = 3 ∧ 3 ≤ x) ∧ ¬ (4 ≤ y ∧ x = 3))
  ∧ (getEdgeCoach p x y 4 = None →
       (∀ quad, panelText quad p x y = desc quad)
       ∧ ∃ q, useQuadrant p x y = Some q ∧ summaryText p x y = Some (name q, desc q))
  ∧ (∀ s, getEdgeCoach p x y 4 = Some s →
       (∀ quad, panelText quad p x y = s)
       ∧ ∃ q, useQuadrant p x y = Some q ∧ summaryText p x y = Some (name q, s)).
Proof.
  destruct (coach_present p) as [coach Hc]. exists coach.
  assert (Hrules : getEdgeCoach p x y 4 =
      (if decide (y = 3 ∧ 4 ≤ x) then Some (y3_x4plus coach)
       else if decide (4 ≤ y ∧ x = 3) then Some (y4plus_x3 coach)
       else if decide (y = 3 ∧ x = 3) then Some (y3_x3 coach)
       else None)).
  { unfold getEdgeCoach. rewrite Hc. cbv zeta.
    destruct (y =? 3) eqn:Hy3, (x =? 3) eqn:Hx3,
             (x >=? 4) eqn:Hx4, (y >=? 4) eqn:Hy4; simpl;
      rewrite ?Z.eqb_eq, ?Z.eqb_neq, ?Z.geb_leb, ?Z.leb_le, ?Z.leb_gt in *;
      repeat case_decide; try reflexivity; lia. }
  destruct (useQuadrant_defined p x y) as [q Hq].
  split_and!; [done|done|..].
  - rewrite Hrules. repeat case_decide; split; try done; intros; lia.
  - intros HN. split.
    + intros quad. unfold panelText. by rewrite HN.
    + exists q. split; [done|]. unfold summaryText. by rewrite Hq, HN.
  - intros s HS. split.
    + intros quad. unfold panelText. by rewrite HS.
    + exists q. split; [done|]. unfold summaryText. by rewrite Hq, HS.
Qed.
End coach_facts.

Section plot_facts.
Import Plot.

Lemma rating_cases (x : Z) : 1 ≤ x ≤ 5 → x = 1 ∨ x = 2 ∨ x = 3 ∨ x = 4 ∨ x = 5.
Proof. lia. Qed.

Lemma dims_exact (compact : bool) :
  represents padding 24 ∧ represents (plotW compact) (plotDim compact)
  ∧ represents (plotH compact) (plotDim compact).
Proof. destruct compact; split_and!; eexists; split; vm_compute; done. Qed.

Lemma toPos_exact (compact : bool) (x y : Z) :
  1 ≤ x ≤ 5 → 1 ≤ y ≤ 5 →
  represents (cx (toPos compact x y))
    (toPosition (inject_Z x) (inject_Z y) (plotDim compact) (plotDim compact) 24).1
  ∧ represents (cy (toPos compact x y))
    (toPosition (inject_Z x) (inject_Z y) (plotDim compact) (plotDim compact) 24).2.
Proof.
  intros Hx%rating_cases Hy%rating_cases.
  destruct compact;
    destruct Hx as [->|[->|[->|[->| ->]]]];
    destruct Hy as [->|[->|[->|[->| ->]]]];
    split; (eexists; split; [vm_compute; reflexivity | vm_compute; reflexivity]).
Qed.

Lemma toPosition_corners (w h pad : Q) :
  (toPosition 1 1 w h pad).1 == pad ∧ (toPosition 1 1 w h pad).2 == pad + h
  ∧ (toPosition 5 5 w h pad).1 == pad + w ∧ (toPosition 5 5 w h pad).2 == pad.
Proof. unfold toPosition; simpl. split_and!; field. Qed.

Lemma toPos_corners (compact : bool) :
  toPos compact 1 1 = {| cx := padding; cy := (padding + plotH compact)%float |}
  ∧ toPos compact 5 5 = {| cx := (padding + plotW compact)%float; cy := padding |}.
Proof. destruct compact; split; reflexivity. Qed.

Lemma Grid_positions (x y : Z) (compact : bool) (points : list Point) :
  currentCircle (Grid x y compact points) = toPos compact x y
  ∧ length (savedCircles (Grid x y compact points)) = length points
  ∧ ∀ i p, points !! i = Some p →
      savedCircles (Grid x y compact points) !! i
      = Some (toPos compact (pt_x p) (pt_y p)).
Proof.
  split_and!.
  - reflexivity.
  - unfold Grid; simpl. by rewrite length_fmap.
  - intros i p Hp. unfold Grid; simpl. by rewrite list_lookup_fmap, Hp.
Qed.
End plot_facts.

(** ** The reference codec *)

Section codec_facts.
Import Js RefCodec.

Lemma read_uint_show (d : Decimal.uint) (k : string) :
  no_digit k → read_uint (show_uint d k) = (d, k).
Proof.
  intros Hk. induction d; simpl; rewrite ?IHd; try reflexivity.
  destruct k as [|c k]; [reflexivity|]. simpl in *. by rewrite Hk.
Qed.

Lemma show_uint_head (d : Decimal.uint) (k : string) :
  d ≠ Decimal.Nil →
  ∃ c r, show_uint d k = String c r ∧ is_Some (digit c).
Proof. destruct d; [done|..]; intros _; do 2 eexists; (split; [reflexivity|by eexists]). Qed.

Lemma digit_not_minus (c : Ascii.ascii) : is_Some (digit c) → c ≠ "-"%char.
Proof. intros [D HD] ->. discriminate. Qed.

Lemma read_int_show_pos (d : Decimal.uint) (k : string) :
  d ≠ Decimal.Nil → no_digit k →
  read_int (show_uint d k) = Some (Z.of_int (Decimal.Pos d), k).
Proof.
  intros Hd Hk. destruct (show_uint_head d k Hd) as (c & r & Hs & Hc).
  unfold read_int. rewrite Hs.
  rewrite decide_False by by apply digit_not_minus.
  rewrite <- Hs, read_uint_show by done. by destruct d.
Qed.

Lemma read_int_show (n : Z) (k : string) :
  no_digit k → read_int (show_int (Z.to_int n) k) = Some (n, k).
Proof.
  intros Hk. rewrite <- (DecimalZ.of_to n) at 2.
  destruct n as [|p|p]; simpl Z.to_int.
  - by apply read_int_show_pos.
  - apply read_int_show_pos; [apply Unsigned.to_uint_nonnil|done].
  - unfold show_int, read_int. rewrite decide_True by done.
    rewrite read_uint_show by done.
    pose proof (Unsigned.to_uint_nonnil p). by destruct (Pos.to_uint p).
Qed.

Lemma show_int_head (n : Z) (k : string) :
  ∃ c r, show_int (Z.to_int n) k = String c r ∧ is_numchar c = true.
Proof.
  destruct n as [|p|p]; simpl Z.to_int.
  - by do 2 eexists.
  - destruct (show_uint_head (Pos.to_uint p) k) as (c & r & Hs & Hc);
      [apply Unsigned.to_uint_nonnil|].
    exists c, r. split; [done|]. unfold is_numchar.
    by rewrite (bool_decide_eq_true_2 _ Hc), orb_true_r.
  - by do 2 eexists.
Qed.

Lemma read_chars_step (c : Ascii.ascii) (s k : string) :
  read_chars (show_chars (String c s) k)
  = match read_chars (show_chars s k) with
    | Some (x, r') => Some (String c x, r')
    | None => None
    end.
Proof. destruct c as [[] [] [] [] [] [] [] []]; reflexivity. Qed.

Lemma read_chars_show (s k : string) :
  read_chars (show_chars s (String dquote k)) = Some (s, k).
Proof.
  induction s as [|c s IH]; [reflexivity|]. by rewrite read_chars_step, IH.
Qed.

Lemma show_arr_cons (x : json) (l : list json) (k : string) :
  show (JArr (x :: l)) k = String "[" (show x (show_tail k l)).
Proof. reflexivity. Qed.

Lemma show_obj_cons (key : string) (x : json) (l : list (string * json)) (k : string) :
  show (JObj ((key, x) :: l)) k
  = String "{" (show_string key (String ":" (show x (show_mtail k l)))).
Proof. reflexivity. Qed.

Lemma show_tail_cons (k : string) (y : json) (l : list json) :
  show_tail k (y :: l) = String "," (show y (show_tail k l)).
Proof. reflexivity. Qed.

Lemma show_mtail_cons (k key : string) (y : json) (l : list (string * json)) :
  show_mtail k ((key, y) :: l)
  = String "," (show_string key (String ":" (show y (show_mtail k l)))).
Proof. reflexivity. Qed.

Lemma weight_arr (l : list json) : weight (JArr l) = S (weight_list l).
Proof. reflexivity. Qed.

Lemma weight_obj (l : list (string * json)) : weight (JObj l) = S (weight_members l).
Proof. reflexivity. Qed.

(** A value never starts with a closing bracket. *)
Lemma show_head (v : json) (k : string) :
  ∃ c r, show v k = String c r ∧ c ≠ "]"%char.
Proof.
  destruct v as [|[]|n|s|l|l]; try by do 2 eexists.
  destruct (show_int_head n k) as (c & r & Hs & Hc).
  exists c, r. split; [done|]. by intros ->.
Qed.

Lemma read_elements_show (l : list json) :
  Forall reads_back l →
  ∀ x fuel k, reads_back x → (weight x + weight_list l + 1 ≤ fuel)%nat →
    read_elements fuel (show x (show_tail k l)) = Some (x :: l, k).
Proof.
  induction 1 as [|y l Hy _ IH]; intros x fuel k Hx Hf;
    (destruct fuel as [|fuel]; [lia|]); cbn [read_elements].
  - rewrite Hx by (done || simpl in *; lia). reflexivity.
  - rewrite show_tail_cons, Hx by (done || simpl in *; lia).
    rewrite decide_True by done.
    rewrite IH by (done || simpl in *; lia). reflexivity.
Qed.

Lemma read_members_show (l : list (string * json)) :
  Forall (λ kv, reads_back kv.2) l →
  ∀ key x fuel k, reads_back x → (weight x + weight_members l + 1 ≤ fuel)%nat →
    read_members fuel (show_string key (String ":" (show x (show_mtail k l))))
    = Some ((key, x) :: l, k).
Proof.
  induction 1 as [|[key' y] l Hy _ IH]; intros key x fuel k Hx Hf;
    (destruct fuel as [|fuel]; [lia|]); unfold show_string; cbn [read_members];
    rewrite decide_True by done; rewrite read_chars_show;
    rewrite decide_True by done.
  - rewrite Hx by (done || simpl in *; lia). reflexivity.
  - rewrite show_mtail_cons, Hx by (done || simpl in *; lia).
    rewrite decide_True by done.
    rewrite (IH key' y) by (done || simpl in *; lia). reflexivity.
Qed.

Lemma read_value_show (v : json) : reads_back v.
Proof.
  induction v as [|b|n|s|l IH|l IH] using json_induction; intros fuel k Hf Hk;
    (destruct fuel as [|fuel]; [simpl in Hf; lia|]).
  - reflexivity.
  - by destruct b.
  - destruct (show_int_head n k) as (c & r & Hs & Hc).
    change (show (JNum n) k) with (show_int (Z.to_int n) k).
    rewrite Hs. cbn [read_value]. rewrite Hc, <- Hs, read_int_show by done.
    reflexivity.
  - change (show (JStr s) k) with (String dquote (show_chars s (String dquote k))).
    cbn [read_value]. change (is_numchar dquote) with false. cbv iota.
    rewrite decide_True by done. by rewrite read_chars_show.
  - destruct l as [|x l]; [reflexivity|].
    rewrite show_arr_cons. cbn [read_value].
    change (is_numchar "[") with false. cbv iota.
    rewrite decide_False by done. rewrite decide_True by done.
    destruct (show_head x (show_tail k l)) as (c & r & Hs & Hc).
    rewrite Hs, decide_False by done. rewrite <- Hs.
    apply Forall_cons in IH as [Hx IH]. rewrite weight_arr in Hf.
    rewrite (read_elements_show l IH) by (done || simpl in *; lia). reflexivity.
  - destruct l as [|[key x] l]; [reflexivity|].
    rewrite show_obj_cons. cbn [read_value].
    change (is_numchar "{") with false. cbv iota.
    do 2 (rewrite decide_False by done). rewrite decide_True by done.
    unfold show_string at 1. rewrite decide_False by done.
    apply Forall_cons in IH as [Hx IH]. rewrite weight_obj in Hf.
    change (String dquote (show_chars key (String dquote ?r)))
      with (show_string key r).
    rewrite (read_members_show l IH) by (done || simpl in *; lia). reflexivity.
Qed.

Lemma length_show_uint (d : Decimal.uint) (k : string) :
  (String.length k ≤ String.length (show_uint d k))%nat.
Proof. induction d; simpl; lia. Qed.

Lemma length_show_int (n : Z) (k : string) :
  (1 + String.length k ≤ String.length (show_int (Z.to_int n) k))%nat.
Proof.
  destruct n as [|p|p]; simpl Z.to_int; unfold show_int.
  - simpl. lia.
  - pose proof (Unsigned.to_uint_nonnil p) as Hp.
    destruct (Pos.to_uint p) as [|d|d|d|d|d|d|d|d|d|d]; [done|..]; simpl;
      pose proof (length_show_uint d k); lia.
  - pose proof (length_show_uint (Pos.to_uint p) k). simpl. lia.
Qed.

Lemma length_show_chars (s k : string) :
  (String.length k ≤ String.length (show_chars s k))%nat.
Proof.
  induction s as [|c s IH]; simpl; [lia|].
  destruct (short_escape c); [simpl; lia|].
  destruct (N.ltb _ _); simpl; lia.
Qed.

Lemma length_show_string (s k : string) :
  (2 + String.length k ≤ String.length (show_string s k))%nat.
Proof.
  unfold show_string. pose proof (length_show_chars s (String dquote k)).
  simpl in *. lia.
Qed.

Lemma length_show_tail (l : list json) (k : string) :
  Forall long_enough l →
  (weight_list l + String.length k + 1 ≤ String.length (show_tail k l))%nat.
Proof.
  induction 1 as [|y l Hy _ IH]; [simpl; lia|].
  rewrite show_tail_cons. specialize (Hy (show_tail k l)). simpl in *. lia.
Qed.

Lemma length_show_mtail (l : list (string * json)) (k : string) :
  Forall (λ kv, long_enough kv.2) l →
  (weight_members l + String.length k + 1 ≤ String.length (show_mtail k l))%nat.
Proof.
  induction 1 as [|[key y] l Hy _ IH]; [simpl; lia|].
  rewrite show_mtail_cons. specialize (Hy (show_mtail k l)).
  pose proof (length_show_string key (String ":" (show y (show_mtail k l)))).
  simpl in *. lia.
Qed.

Lemma weight_le_length (v : json) : long_enough v.
Proof.
  induction v as [|b|n|s|l IH|l IH] using json_induction; intros k.
  - change (show JNull k) with (String "n" (String "u" (String "l" (String "l" k)))).
    simpl. lia.
  - destruct b; [change (show (JBool true) k)
        with (String "t" (String "r" (String "u" (String "e" k))))
      | change (show (JBool false) k)
        with (String "f" (String "a" (String "l" (String "s" (String "e" k)))))];
      simpl; lia.
  - pose proof (length_show_int n k). simpl in *. lia.
  - pose proof (length_show_string s k). simpl in *. lia.
  - destruct l as [|x l]; [simpl; lia|].
    apply Forall_cons in IH as [Hx IH].
    rewrite show_arr_cons, weight_arr.
    specialize (Hx (show_tail k l)). pose proof (length_show_tail l k IH).
    simpl in *. lia.
  - destruct l as [|[key x] l]; [simpl; lia|].
    apply Forall_cons in IH as [Hx IH].
    rewrite show_obj_cons, weight_obj.
    specialize (Hx (show_mtail k l)). pose proof (length_show_mtail l k IH).
    pose proof (length_show_string key (String ":" (show x (show_mtail k l)))).
    simpl in *. lia.
Qed.

(** The reference parser reads back every value the reference printer
    writes. *)
Lemma parse_stringify_ref (v : json) : parse (stringify v) = Returned v.
Proof.
  unfold parse, stringify.
  rewrite read_value_show; [done| |done].
  pose proof (weight_le_length v ""). simpl in *. lia.
Qed.

End codec_facts.

(** The reference codec is a codec. *)
#[export] Instance ref_codec : Js.JsonCodec :=
  {| Js.JSON_stringify := RefCodec.stringify;
     Js.JSON_parse := RefCodec.parse;
     Js.parse_stringify := λ v _, parse_stringify_ref v;
     Js.parse_empty_array := eq_refl;
     Js.parse_empty_string := ex_intro _ "SyntaxError" eq_refl |}.

(** ** Saving, loading, deleting *)

Section store_facts.
Import Js Store.
Context `{codec : !JsonCodec}.

Lemma or_string_Some (s b : string) : s ≠ "" → or_string (Some s) b = s.
Proof. by destruct s. Qed.

Lemma or_string_empty (b : string) : or_string (Some "") b = b.
Proof. reflexivity. Qed.

Lemma json_wf_scores (s : gmap string Z) : json_wf (scores_to_json s).
Proof.
  constructor.
  - rewrite <- list_fmap_compose. exact (NoDup_fst_map_to_list s).
  - apply Forall_fmap, Forall_forall. intros kv _. constructor.
Qed.

Lemma json_wf_resource (r : SavedResource.t) : json_wf (resource_to_json r).
Proof.
  constructor.
  - compute_done.
  - repeat first [apply json_wf_scores | constructor].
Qed.

Lemma json_wf_resources (rs : list SavedResource.t) : json_wf (resources_to_json rs).
Proof.
  constructor. apply Forall_fmap, Forall_forall. intros r _.
  apply json_wf_resource.
Qed.

Lemma json_to_scores_of (s : gmap string Z) : json_to_scores (scores_to_json s) = Some s.
Proof.
  unfold json_to_scores, scores_to_json.
  assert (mapM (λ kv : string * json,
                   match kv.2 with JNum n => Some (kv.1, n) | _ => None end)
               ((λ kv : string * Z, (kv.1, JNum kv.2)) <$> map_to_list s)
          = Some (map_to_list s)) as ->.
  { apply mapM_Some. apply Forall2_fmap_l, Forall_Forall2_diag, Forall_forall.
    by intros [k n] _. }
  simpl. f_equal. apply list_to_map_to_list.
Qed.

Lemma json_to_resource_of (r : SavedResource.t) :
  json_to_resource (resource_to_json r) = Some r.
Proof.
  destruct r as [i n s]. unfold json_to_resource, resource_to_json; simpl.
  unfold get_field; simpl.
  change (list_to_map <$> mapM _ _) with (json_to_scores (scores_to_json s)).
  by rewrite json_to_scores_of.
Qed.

Lemma json_to_resources_of (rs : list SavedResource.t) :
  json_to_resources (resources_to_json rs) = Some rs.
Proof.
  unfold json_to_resources, resources_to_json.
  apply mapM_Some. apply Forall2_fmap_l, Forall_Forall2_diag, Forall_forall.
  intros r _. apply json_to_resource_of.
Qed.

(** No value is serialised as the empty text. *)
Lemma stringify_nonempty (v : json) : json_wf v → JSON_stringify v ≠ "".
Proof.
  intros Hv Hs. pose proof (parse_stringify v Hv) as Hp.
  destruct parse_empty_string as [e He]. rewrite Hs, He in Hp. discriminate.
Qed.

Lemma load_missing (ls : gmap string string) :
  ls !! "resourcesV1" = None → load ls = Returned (JArr []).
Proof.
  intros Hm. unfold load, getItem. rewrite Hm. simpl.
  by rewrite parse_empty_array.
Qed.

Lemma load_corrupt (ls : gmap string string) (blob e : string) :
  ls !! "resourcesV1" = Some blob → JSON_parse blob = Thrown e →
  load ls = Returned (JArr []).
Proof.
  intros Hb Hp. unfold load, getItem. rewrite Hb.
  destruct blob as [|c blob]; simpl.
  - by rewrite parse_empty_array.
  - by rewrite Hp.
Qed.

Lemma load_parsed (ls : gmap string string) (blob : string) (v : json) :
  ls !! "resourcesV1" = Some blob → JSON_parse blob = Returned v →
  load ls = Returned v.
Proof.
  intros Hb Hp. unfold load, getItem. rewrite Hb.
  destruct blob as [|c blob]; simpl.
  - destruct parse_empty_string as [e He]. rewrite He in Hp. discriminate.
  - by rewrite Hp.
Qed.

Lemma load_total (ls : gmap string string) : ∃ v, load ls = Returned v.
Proof.
  destruct (ls !! "resourcesV1") as [blob|] eqn:Hb.
  - destruct (JSON_parse blob) as [v|e] eqn:Hp.
    + exists v. by eapply load_parsed.
    + exists (JArr []). by eapply load_corrupt.
  - exists (JArr []). by apply load_missing.
Qed.

Lemma load_stored (ls : gmap string string) (rs : list SavedResource.t) :
  ls !! "resourcesV1" = Some (JSON_stringify (resources_to_json rs)) →
  load ls = Returned (resources_to_json rs).
Proof.
  intros Hb. eapply load_parsed; [done|].
  apply parse_stringify, json_wf_resources.
Qed.

Lemma start_stored (ls : gmap string string) (rs : list SavedResource.t) :
  ls !! "resourcesV1" = Some (JSON_stringify (resources_to_json rs)) →
  start ls = Some {| pairKey := Engine.RAID; scores := initialScores;
                     resources := rs; resourceName := "";
                     localStorage := ls |}.
Proof.
  intros Hb. unfold start. rewrite (load_stored ls rs Hb).
  by rewrite json_to_resources_of.
Qed.

Lemma start_empty (ls : gmap string string) :
  load ls = Returned (JArr []) →
  start ls = Some {| pairKey := Engine.RAID; scores := initialScores;
                     resources := []; resourceName := "";
                     localStorage := ls |}.
Proof. intros Hl. unfold start. by rewrite Hl. Qed.

(** C5.  [load] never raises.  It returns the empty collection when the
    blob is missing and when the blob does not parse, and the state then
    starts with no saved resource.  For a blob that parses it returns the
    parsed value; for the blob [saveAll] wrote for a list, that list. *)
Theorem load_recovers (ls : gmap string string) :
  (∃ v, load ls = Returned v)
  ∧ (ls !! "resourcesV1" = None →
       load ls = Returned (JArr []) ∧ resources <$> start ls = Some [])
  ∧ (∀ blob e, ls !! "resourcesV1" = Some blob → JSON_parse blob = Thrown e →
       load ls = Returned (JArr []) ∧ resources <$> start ls = Some [])
  ∧ (∀ blob v, ls !! "resourcesV1" = Some blob → JSON_parse blob = Returned v →
       load ls = Returned v)
  ∧ (∀ rs, ls !! "resourcesV1" = Some (JSON_stringify (resources_to_json rs)) →
       load ls = Returned (resources_to_json rs)
       ∧ resources <$> start ls = Some rs).
Proof.
  split_and!.
  - apply load_total.
  - intros Hm. pose proof (load_missing ls Hm) as Hl.
    split; [done|]. by rewrite (start_empty ls Hl).
  - intros blob e Hb Hp. pose proof (load_corrupt ls blob e Hb Hp) as Hl.
    split; [done|]. by rewrite (start_empty ls Hl).
  - apply load_parsed.
  - intros rs Hb. split; [by apply load_stored|].
    by rewrite (start_stored ls rs Hb).
Qed.

Lemma saveAll_resources next st : resources (saveAll next st) = next.
Proof. reflexivity. Qed.

Lemma saveAll_storage next st :
  localStorage (saveAll next st)
  = <["resourcesV1" := JSON_stringify (resources_to_json next)]> (localStorage st).
Proof. reflexivity. Qed.

Lemma saveAll_blob next st :
  localStorage (saveAll next st) !! "resourcesV1"
  = Some (JSON_stringify (resources_to_json next)).
Proof. rewrite saveAll_storage. apply lookup_insert_eq. Qed.

Lemma saveCurrentResource_resources src st :
  resources (saveCurrentResource src st) = resources st ++ [savedEntry src st].
Proof. reflexivity. Qed.

Lemma saveCurrentResource_blob src st :
  localStorage (saveCurrentResource src st) !! "resourcesV1"
  = Some (JSON_stringify (resources_to_json (resources st ++ [savedEntry src st]))).
Proof. apply saveAll_blob. Qed.

(** C4.  Round trip.  After [saveCurrentResource], reading the persisted
    blob back with [load], as a restart of the page does, gives the list
    held in memory: the resources there were, followed by the saved entry,
    with the name it was saved under and the scores of the moment of the
    save, criterion by criterion. *)
Theorem save_load_round_trip (src : IdSource) (st : State) :
  let st' := saveCurrentResource src st in
  let r := savedEntry src st in
  load (localStorage st') = Returned (resources_to_json (resources st ++ [r]))
  ∧ ∃ st2, start (localStorage st') = Some st2
      ∧ resources st2 = resources st'
      ∧ r ∈ resources st2
      ∧ SavedResource.name r = savedName st
      ∧ SavedResource.scores r = scores st
      ∧ ∀ c, c ∈ criteria → SavedResource.scores r !! c = scores st !! c.
Proof.
  intros st' r. pose proof (saveCurrentResource_blob src st) as Hb.
  split; [by apply load_stored|].
  eexists. split; [by apply start_stored|]. simpl.
  split_and!; try done. set_solver.
Qed.

Lemma skip_one_space (c : Ascii.ascii) (s : string) :
  Ascii.is_space c = true → skip_one WhiteSpace (String c s) = Some s.
Proof. destruct c as [[] [] [] [] [] [] [] []]; try discriminate; reflexivity. Qed.

Lemma trimStart_blank (s : string) (fuel : nat) :
  all_space s = true → (String.length s ≤ fuel)%nat → skip_all fuel WhiteSpace s = "".
Proof.
  revert fuel. induction s as [|c s IH]; intros fuel Hs Hf.
  - by destruct fuel.
  - simpl in Hs, Hf. apply andb_true_iff in Hs as [Hc Hs].
    destruct fuel as [|fuel]; [lia|]. cbn [skip_all].
    rewrite skip_one_space by done. apply IH; [done|lia].
Qed.

Lemma trim_blank (s : string) : all_space s = true → trim s = "".
Proof.
  intros Hs. unfold trim, trimStart. by rewrite trimStart_blank.
Qed.

Example trim_example : trim "  Literacy Pilot  " = "Literacy Pilot".
Proof. reflexivity. Qed.

Lemma savedName_cases (st : State) :
  savedName st
  = if decide (trim (resourceName st) = "")
    then "Resource " +:+ pretty (length (resources st) + 1)%nat
    else trim (resourceName st).
Proof.
  unfold savedName. case_decide as Ht.
  - by rewrite Ht.
  - by apply or_string_Some.
Qed.

Lemma newId_cases (src : IdSource) :
  (∀ u, randomUUID src = Some u → u ≠ "" → newId src = u)
  ∧ (randomUUID src = Some "" → newId src = pretty (now src))
  ∧ (randomUUID src = None → newId src = pretty (now src)).
Proof.
  unfold newId. split_and!.
  - intros u -> Hu. by apply or_string_Some.
  - by intros ->.
  - by intros ->.
Qed.

(** C6.  [saveCurrentResource] appends exactly one entry, at the end of the
    list.  Its identifier is the one generated at the call: the UUID of
    [crypto.randomUUID] where there is one, the time stamp otherwise.  Its
    name is the trimmed pending name, or "Resource n+1", [n] the number of
    resources there were, when the trimmed name is empty, as it is when the
    pending name is empty or white space only.  Its scores are the current
    scores.  The blob under "resourcesV1" is replaced by the serialisation
    of the whole new list, and nothing else in the storage changes. *)
Theorem saveCurrentResource_appends (src : IdSource) (st : State) :
  let st' := saveCurrentResource src st in
  let n := length (resources st) in
  let name := trim (resourceName st) in
  ∃ r, resources st' = resources st ++ [r]
    ∧ length (resources st') = S n
    ∧ SavedResource.id r = newId src
    ∧ (∀ u, randomUUID src = Some u → u ≠ "" → SavedResource.id r = u)
    ∧ (randomUUID src = None → SavedResource.id r = pretty (now src))
    ∧ SavedResource.name r
      = (if decide (name = "") then "Resource " +:+ pretty (n + 1)%nat else name)
    ∧ (all_space (resourceName st) = true →
         SavedResource.name r = "Resource " +:+ pretty (n + 1)%nat)
    ∧ SavedResource.scores r = scores st
    ∧ localStorage st'
      = <["resourcesV1" := JSON_stringify (resources_to_json (resources st ++ [r]))]>
          (localStorage st)
    ∧ localStorage st' !! "resourcesV1"
      = Some (JSON_stringify (resources_to_json (resources st')))
    ∧ (∀ k, k ≠ "resourcesV1" → localStorage st' !! k = localStorage st !! k)
    ∧ resourceName st' = "" ∧ scores st' = scores st.
Proof.
  intros st' n name. exists (savedEntry src st).
  destruct (newId_cases src) as (Hu & _ & Hn).
  split_and!; try done.
  - subst st'. rewrite saveCurrentResource_resources, length_app. simpl. lia.
  - apply savedName_cases.
  - intros Hb. simpl. rewrite savedName_cases.
    by rewrite decide_True by by apply trim_blank.
  - apply saveCurrentResource_blob.
  - intros k Hk. subst st'. unfold saveCurrentResource. simpl.
    unfold setItem. by rewrite lookup_insert_ne.
Qed.

Lemma deleteResource_resources (i : string) (st : State) :
  resources (deleteResource i st)
  = filter (λ r, SavedResource.id r ≠ i) (resources st).
Proof. reflexivity. Qed.

Lemma filter_all {A} (P : A → Prop) `{∀ x, Decision (P x)} (l : list A) :
  Forall P l → filter P l = l.
Proof.
  induction 1 as [|x l Hx _ IH]; [done|].
  by rewrite filter_cons_True, IH.
Qed.

(** C7.  [deleteResource(id)] keeps, in their order, exactly the entries
    whose identifier is not [id], and replaces the persisted blob by the
    serialisation of the list that is left.  When no entry has the
    identifier the collection is unchanged. *)
Theorem deleteResource_removes (i : string) (st : State) :
  let st' := deleteResource i st in
  resources st' = filter (λ r, SavedResource.id r ≠ i) (resources st)
  ∧ (∀ r, r ∈ resources st' ↔ r ∈ resources st ∧ SavedResource.id r ≠ i)
  ∧ resources st' `sublist_of` resources st
  ∧ localStorage st'
    = <["resourcesV1" := JSON_stringify (resources_to_json (resources st'))]>
        (localStorage st)
  ∧ ((∀ r, r ∈ resources st → SavedResource.id r ≠ i) →
       resources st' = resources st)
  ∧ scores st' = scores st ∧ resourceName st' = resourceName st.
Proof.
  intros st'. split_and!; try done.
  - intros r. subst st'. rewrite deleteResource_resources.
    rewrite list_elem_of_filter. tauto.
  - subst st'. rewrite deleteResource_resources. apply sublist_filter.
  - intros Hno. subst st'. rewrite deleteResource_resources.
    apply filter_all, Forall_forall, Hno.
Qed.

(** Saved entries are not touched by a slider. *)
Lemma setScores_resources (k : string) (n : Z) (st : State) :
  resources (setScores k n st) = resources st
  ∧ localStorage (setScores k n st) = localStorage st.
Proof. done. Qed.
End store_facts.

(** ** The objects of the store *)

Section heap_facts.
Import Js Heap.
Context `{codec : !JsonCodec}.

Lemma read_alloc_old (h : list (gmap string Z)) (o : gmap string Z) (l : loc) :
  (l < length h)%nat → read (h ++ [o]) l = read h l.
Proof. intros Hl. unfold read. by rewrite lookup_total_app_l. Qed.

Lemma read_alloc_new (h : list (gmap string Z)) (o : gmap string Z) :
  read (h ++ [o]) (length h) = o.
Proof.
  unfold read. rewrite lookup_total_app_r by lia.
  by rewrite Nat.sub_diag.
Qed.

Lemma resource_value_alloc (h : list (gmap string Z)) (o : gmap string Z)
    (rs : list Saved) :
  Forall (λ r, (scores r < length h)%nat) rs →
  resource_value (h ++ [o]) <$> rs = resource_value h <$> rs.
Proof.
  intros Hrs. apply list_fmap_ext. intros i r Hr.
  unfold resource_value. f_equal. apply read_alloc_old.
  eapply Forall_lookup_1 in Hrs; eauto.
Qed.

Lemma setScores_closed (k : string) (n : Z) (st : State) :
  closed st → closed (setScores k n st).
Proof.
  intros [Hs Hrs]. unfold closed, setScores; simpl.
  rewrite length_app; simpl. split; [lia|].
  eapply Forall_impl; [done|]. simpl. lia.
Qed.

Lemma setScores_separate (k : string) (n : Z) (st : State) :
  closed st → separate (setScores k n st).
Proof.
  intros [Hs Hrs]. unfold separate, setScores; simpl.
  eapply Forall_impl; [done|]. simpl. lia.
Qed.

Lemma setScores_value (k : string) (n : Z) (st : State) :
  closed st → value (setScores k n st) = Store.setScores k n (value st).
Proof.
  intros [Hs Hrs]. unfold value, setScores, Store.setScores; simpl.
  by rewrite read_alloc_new, resource_value_alloc.
Qed.

Lemma setScores_read (k : string) (n : Z) (st : State) (l : loc) :
  (l < length (objects st))%nat →
  read (objects (setScores k n st)) l = read (objects st) l.
Proof. intros Hl. by apply read_alloc_old. Qed.

Lemma setScoresMany_spec (updates : list (string * Z)) (st : State) :
  closed st →
  closed (setScoresMany updates st)
  ∧ resources (setScoresMany updates st) = resources st
  ∧ (∀ l, (l < length (objects st))%nat →
       read (objects (setScoresMany updates st)) l = read (objects st) l)
  ∧ value (setScoresMany updates st)
    = foldl (λ s kn, Store.setScores kn.1 kn.2 s) (value st) updates.
Proof.
  revert st. induction updates as [|[k n] updates IH]; intros st Hst; [done|].
  unfold setScoresMany in *. cbn [foldl fst snd].
  destruct (IH (setScores k n st)) as (Hc & Hr & Hread & Hv);
    [by apply setScores_closed|].
  split_and!; [done|by rewrite Hr|..].
  - intros l Hl. rewrite Hread.
    + by apply setScores_read.
    + unfold setScores; simpl. rewrite length_app. lia.
  - by rewrite Hv, setScores_value.
Qed.

Lemma saveCurrentResource_closed (src : Store.IdSource) (st : State) :
  closed st → closed (saveCurrentResource src st).
Proof.
  intros [Hs Hrs]. unfold closed, saveCurrentResource; simpl.
  rewrite length_app; simpl. split; [lia|].
  apply Forall_app. split.
  - eapply Forall_impl; [done|]. simpl. lia.
  - apply Forall_singleton. simpl. lia.
Qed.

Lemma saveCurrentResource_separate (src : Store.IdSource) (st : State) :
  closed st → separate st → separate (saveCurrentResource src st).
Proof.
  intros [Hs Hrs] Hsep. unfold separate, saveCurrentResource; simpl.
  apply Forall_app. split; [done|].
  apply Forall_singleton. simpl. lia.
Qed.

Lemma saveCurrentResource_value (src : Store.IdSource) (st : State) :
  closed st →
  value (saveCurrentResource src st) = Store.saveCurrentResource src (value st).
Proof.
  intros [Hs Hrs].
  unfold value, saveCurrentResource, Store.saveCurrentResource,
    Store.setResourceName, Store.saveAll, Store.savedName; simpl.
  rewrite !fmap_app, !length_fmap. simpl.
  rewrite !resource_value_alloc by done.
  unfold resource_value; simpl.
  rewrite read_alloc_new, !read_alloc_old by done. done.
Qed.

Lemma Forall_filter_keep {A} (P Q : A → Prop) `{∀ x, Decision (Q x)} (l : list A) :
  Forall P l → Forall P (filter Q l).
Proof.
  rewrite !Forall_forall. intros HP x [_ Hx]%list_elem_of_filter. by apply HP.
Qed.

Lemma deleteResource_closed (i : string) (st : State) :
  closed st → closed (deleteResource i st).
Proof.
  intros [Hs Hrs]. split; [done|]. simpl. by apply Forall_filter_keep.
Qed.

Lemma deleteResource_separate (i : string) (st : State) :
  separate st → separate (deleteResource i st).
Proof. intros Hsep. unfold separate. simpl. by apply Forall_filter_keep. Qed.

Lemma deleteResource_value (i : string) (st : State) :
  value (deleteResource i st) = Store.deleteResource i (value st).
Proof.
  unfold value, deleteResource, Store.deleteResource, Store.saveAll, saveAll; simpl.
  assert (resource_value (objects st) <$> filter (λ r, id r ≠ i) (resources st)
          = filter (λ r, SavedResource.id r ≠ i)
              (resource_value (objects st) <$> resources st)) as ->; [|done].
  induction (resources st) as [|r rs IH]; [done|].
  rewrite fmap_cons. destruct (decide (id r = i)) as [Hi|Hi].
  - rewrite !filter_cons_False by (simpl; tauto). done.
  - rewrite !filter_cons_True by done. by rewrite fmap_cons, IH.
Qed.

Lemma start_sound (rs : list SavedResource.t) (ls : gmap string string) :
  closed (start rs ls) ∧ separate (start rs ls)
  ∧ Store.resources (value (start rs ls)) = rs.
Proof.
  unfold closed, separate, start, value; simpl. rewrite length_fmap.
  split_and!.
  - lia.
  - apply Forall_lookup. intros i r Hr.
    apply list_lookup_imap_Some in Hr as (x & Hx & ->). simpl.
    apply lookup_lt_Some in Hx. lia.
  - apply Forall_lookup. intros i r Hr.
    apply list_lookup_imap_Some in Hr as (x & Hx & ->). done.
  - apply list_eq. intros i. rewrite list_lookup_fmap, list_lookup_imap.
    destruct (rs !! i) as [[a b c]|] eqn:Hi; [|done]. simpl.
    unfold resource_value, read; simpl. f_equal. f_equal.
    apply list_lookup_total_correct. by rewrite list_lookup_fmap, Hi.
Qed.

(** An assignment to the object of the state would leave the saved scores
    alone too: they are other objects. *)
Lemma assign_keeps_saved (k : string) (n : Z) (st : State) (r : Saved) :
  separate st → r ∈ resources st →
  read (assign (scores_ref st) k n (objects st)) (scores r)
  = read (objects st) (scores r).
Proof.
  intros Hsep Hr. unfold read, assign.
  eapply Forall_forall in Hsep; [|done].
  by rewrite list_lookup_total_insert_ne.
Qed.

(** C8.  A saved resource does not change when the ratings do.  In a state
    whose references are all live, after any sequence of [setScores] the
    list of saved resources is the same list, the object each entry refers
    to holds what it held, and so every saved entry has the name and the
    scores it had.  This is so because [saveCurrentResource] stores a copy:
    the entry it appends refers to a new object, which no earlier entry and
    not the state refers to, and which holds the scores of the moment. *)
Theorem saved_scores_immutable (st : State) (updates : list (string * Z)) :
  closed st →
  let st' := setScoresMany updates st in
  (resources st' = resources st
   ∧ (∀ r, r ∈ resources st →
        read (objects st') (scores r) = read (objects st) (scores r))
   ∧ Store.resources (value st') = Store.resources (value st)
   ∧ value st' = foldl (λ s kn, Store.setScores kn.1 kn.2 s) (value st) updates)
  ∧ (∀ src,
       let st1 := saveCurrentResource src st in
       ∃ r, resources st1 = resources st ++ [r]
         ∧ scores r ≠ scores_ref st1
         ∧ Forall (λ r', scores r' ≠ scores r) (resources st)
         ∧ read (objects st1) (scores r) = read (objects st) (scores_ref st)
         ∧ closed st1
         ∧ resource_value (objects (setScoresMany updates st1)) r
           = resource_value (objects st1) r).
Proof.
  intros Hst st'. pose proof Hst as [Hs Hrs].
  destruct (setScoresMany_spec updates st Hst) as (Hc & Hr & Hread & Hv).
  split; [split_and!|].
  - done.
  - intros r Hin. apply Hread. eapply Forall_forall in Hrs; eauto.
  - subst st'. unfold value at 1 2. simpl. rewrite Hr.
    apply list_fmap_ext. intros i r Hi. unfold resource_value. f_equal.
    apply Hread. eapply Forall_lookup_1 in Hrs; eauto.
  - done.
  - intros src st1.
    pose proof (saveCurrentResource_closed src st Hst) as Hc1.
    eexists. split; [reflexivity|]. simpl. split_and!.
    + lia.
    + eapply Forall_impl; [exact Hrs|]. simpl. lia.
    + by rewrite read_alloc_new.
    + done.
    + destruct (setScoresMany_spec updates st1 Hc1) as (_ & _ & Hread1 & _).
      unfold resource_value. simpl. f_equal. apply Hread1.
      subst st1. unfold saveCurrentResource. simpl. rewrite length_app. simpl. lia.
Qed.
End heap_facts.

(** ** The plot and the gate *)

Section plot_claims.
Import Engine Plot.

(** C9.  For ratings 1..5 and both plot sizes, [toPos] computes
    [cx = padding + ((x - 1) / 4) * plotW] and
    [cy = padding + (1 - (y - 1) / 4) * plotH] without rounding: the two
    binary64 results denote exactly the rationals the formula gives for the
    exact dimensions.  The pair (1,1) is mapped to the bottom-left corner
    of the plot area and (5,5) to its top-right corner, in the code and, for
    all dimensions, in the formula.  [Grid] places the current point and
    every saved point with this one function. *)
Theorem toPos_formula (compact : bool) (x y : Z) (points : list Point) :
  1 ≤ x ≤ 5 → 1 ≤ y ≤ 5 →
  let W := plotDim compact in
  (represents (cx (toPos compact x y))
     (toPosition (inject_Z x) (inject_Z y) W W 24).1
   ∧ represents (cy (toPos compact x y))
       (toPosition (inject_Z x) (inject_Z y) W W 24).2)
  ∧ (represents padding 24 ∧ represents (plotW compact) W
     ∧ represents (plotH compact) W)
  ∧ (toPos compact 1 1 = {| cx := padding; cy := (padding + plotH compact)%float |}
     ∧ toPos compact 5 5 = {| cx := (padding + plotW compact)%float; cy := padding |})
  ∧ (∀ w h pad : Q,
       ((toPosition 1 1 w h pad).1 == pad ∧ (toPosition 1 1 w h pad).2 == pad + h
        ∧ (toPosition 5 5 w h pad).1 == pad + w ∧ (toPosition 5 5 w h pad).2 == pad)%Q)
  ∧ (currentCircle (Grid x y compact points) = toPos compact x y
     ∧ length (savedCircles (Grid x y compact points)) = length points
     ∧ ∀ i p, points !! i = Some p →
         savedCircles (Grid x y compact points) !! i
         = Some (toPos compact (pt_x p) (pt_y p))).
Proof.
  intros Hx Hy W.
  destruct (toPos_exact compact x y Hx Hy) as [Hcx Hcy].
  destruct (dims_exact compact) as (Hp & Hw & Hh).
  destruct (toPos_corners compact) as [Hbl Htr].
  destruct (Grid_positions x y compact points) as (Hcur & Hlen & Hsaved).
  split_and!; try done. apply toPosition_corners.
Qed.

Lemma gateActive_iff (x y : Z) : gateActive x y = true ↔ x = 3 ∨ y = 3.
Proof. unfold gateActive. rewrite orb_true_iff, !Z.eqb_eq. tauto. Qed.

Lemma panelGate_gateActive (x y : Z) : Engine.panelGate x y = gateActive x y.
Proof. apply orb_comm. Qed.

Lemma pairs_axes_differ (p : Pair) : p ∈ PAIRS → pair_x p ≠ pair_y p.
Proof.
  intros Hp. repeat (apply elem_of_cons in Hp as [->|Hp]; [done|]).
  by apply elem_of_nil in Hp.
Qed.

(** C10.  The evidence gate is [x = 3] or [y = 3], wherever it is computed:
    inside [Grid], where it decides whether the ring is drawn, in the
    summary card and in the tab panel.  It is not stored: the state has no
    field for it, two states with the same scores have the same gate, and
    after a slider moved the gate is that of the new rating. *)
Theorem gateActive_spec (x y : Z) :
  (gateActive x y = true ↔ x = 3 ∨ y = 3)
  ∧ Engine.panelGate x y = gateActive x y
  ∧ (∀ compact points, is_Some (ring (Grid x y compact points)) ↔ x = 3 ∨ y = 3)
  ∧ (∀ p st,
       Store.scores st !! pair_x p = Some x → Store.scores st !! pair_y p = Some y →
       Store.summaryGate p st = Some (gateActive x y)
       ∧ Store.panelGate p st = Some (gateActive x y))
  ∧ (∀ p st st', Store.scores st = Store.scores st' →
       Store.summaryGate p st = Store.summaryGate p st'
       ∧ Store.panelGate p st = Store.panelGate p st')
  ∧ (∀ p st n, p ∈ PAIRS → Store.scores st !! pair_y p = Some y →
       Store.summaryGate p (Store.setScores (pair_x p) n st) = Some (gateActive n y))
  ∧ (∀ p st n, p ∈ PAIRS → Store.scores st !! pair_x p = Some x →
       Store.summaryGate p (Store.setScores (pair_y p) n st) = Some (gateActive x n)).
Proof.
  split_and!.
  - apply gateActive_iff.
  - apply panelGate_gateActive.
  - intros compact points. rewrite <- gateActive_iff. unfold Grid; simpl.
    destruct (gateActive x y); split; (eauto || done || by intros []).
  - intros p st Hx Hy. unfold Store.summaryGate, Store.panelGate.
    rewrite Hx, Hy; simpl. by rewrite panelGate_gateActive.
  - intros p st st' Hs. unfold Store.summaryGate, Store.panelGate. by rewrite Hs.
  - intros p st n Hp Hy. unfold Store.summaryGate, Store.setScores; simpl.
    pose proof (pairs_axes_differ p Hp) as Hne.
    rewrite (lookup_insert_eq (Store.scores st) (pair_x p)).
    rewrite (lookup_insert_ne (Store.scores st) (pair_x p) (pair_y p)) by done.
    by rewrite Hy.
  - intros p st n Hp Hx. unfold Store.summaryGate, Store.setScores; simpl.
    pose proof (pairs_axes_differ p Hp) as Hne.
    rewrite (lookup_insert_eq (Store.scores st) (pair_y p)).
    rewrite (lookup_insert_ne (Store.scores st) (pair_y p) (pair_x p)) by done.
    by rewrite Hx.
Qed.
End plot_claims.

(** ** The first revision *)

Section legacy_facts.
Import Engine.

(** The first revision has no middle case: it never answers "Uncertain",
    and rates 3 as high. *)
Lemma legacy_useQuadrant_no_middle (pair : PairKey) (x y : Z) (q : QuadrantResult) :
  Legacy.useQuadrant pair x y = Some q → name q ≠ "Uncertain".
Proof. apply quadrant_not_uncertain. Qed.

Lemma legacy_useQuadrant_threshold (pair : PairKey) :
  Legacy.useQuadrant pair 3 3 = QUADRANTS !! quadrantCode pair true true
  ∧ useQuadrant pair 3 3 = Some Uncertain.
Proof. by destruct pair. Qed.

(** The plot position is the same in every revision. *)
Lemma legacy_position (compact : bool) (x y : Z) :
  Plot.toPos compact x y
  = {| Plot.cx := Legacy.xPos compact x; Plot.cy := Legacy.yPos compact y |}.
Proof. reflexivity. Qed.
End legacy_facts.

(** ** The session, run *)

Section session.
Import Engine Scenario.

(** Relevance 5 and Alignment 5 on the first pair is the "Sweet Spot";
    3 and 3 is "Uncertain"; Relevance 3 and Alignment 5 gets the
    [y3_x4plus] advisory, with the gate active. *)
Example session_quadrants :
  name <$> useQuadrant RAID 5 5 = Some "Sweet Spot"
  ∧ name <$> useQuadrant RAID 3 3 = Some "Uncertain"
  ∧ getEdgeCoach RAID 5 3 4
    = Some "Good on paper; strengthen classroom fit with quick adaptations, exemplars, and teacher feedback loops."
  ∧ gateActive 5 3 = true
  ∧ name <$> useQuadrant RAID 1 5 = Some "Hidden Gems"
  ∧ name <$> useQuadrant RAID 5 1 = Some "Box-Tickers".
Proof. by vm_compute. Qed.

(** Saving twice gives two entries with two identifiers; deleting the first
    leaves the second; the storage holds the list that is left. *)
Example session_store :
  let st1 := Store.saveCurrentResource uuidSource page in
  let st2 := Store.saveCurrentResource clockSource st1 in
  let st3 := Store.deleteResource "1b4e28ba-2fa1-4d3b-a3f5-0e6c1f0d9a77" st2 in
  (SavedResource.name <$> Store.resources st2) = ["Literacy Pilot"; "Resource 2"]
  ∧ (SavedResource.id <$> Store.resources st2)
    = ["1b4e28ba-2fa1-4d3b-a3f5-0e6c1f0d9a77"; "1700000000001"]
  ∧ (SavedResource.name <$> Store.resources st3) = ["Resource 2"]
  ∧ Store.load (Store.localStorage st3)
    = Js.Returned (Store.resources_to_json (Store.resources st3)).
Proof. by vm_compute. Qed.
End session.

(** ** Instances of the theorems with a premise *)

Lemma useQuadrant_catalog_witness :
  ¬ (5 = 3 ∧ 2 = 3)
  ∧ ∃ q, Engine.useQuadrant Engine.RAID 5 2 = Some q
         ∧ q ∈ Engine.quadrantsOf Engine.RAID
         ∧ Engine.QUADRANTS !! "RAID_LH" = Some q
         ∧ Engine.name q = "Box-Tickers".
Proof.
  assert (H : ¬ (5 = 3 ∧ 2 = 3)) by lia.
  split; [exact H|].
  destruct (useQuadrant_catalog Engine.RAID 5 2 H)
    as [(q & Hq & _ & Hin & Hkey & Hname) _].
  exists q. split_and!; assumption.
Defined.

Lemma toPos_formula_witness :
  (1 ≤ 2 ≤ 5 ∧ 1 ≤ 4 ≤ 5)
  ∧ Plot.represents (Plot.cx (Plot.toPos true 2 4))
      (Plot.toPosition (inject_Z 2) (inject_Z 4) 172 172 24).1.
Proof.
  assert (Hx : 1 ≤ 2 ≤ 5) by lia. assert (Hy : 1 ≤ 4 ≤ 5) by lia.
  split; [split; assumption|].
  exact (proj1 (proj1 (toPos_formula true 2 4 [] Hx Hy))).
Defined.

Lemma saved_scores_immutable_witness :
  Heap.closed Trial.savedHeap
  ∧ (∃ r, Heap.resources Trial.savedHeap = [r]
       ∧ Heap.read (Heap.objects Trial.savedHeap) (Heap.scores r) !! "Relevance"
         = Some 4
       ∧ Heap.read
           (Heap.objects
              (Heap.setScoresMany [("Relevance", 5); ("Impact", 1)] Trial.savedHeap))
           (Heap.scores r) !! "Relevance" = Some 4)
  ∧ Heap.read
      (Heap.objects
         (Heap.setScoresMany [("Relevance", 5); ("Impact", 1)] Trial.savedHeap))
      (Heap.scores_ref
         (Heap.setScoresMany [("Relevance", 5); ("Impact", 1)] Trial.savedHeap))
    !! "Relevance" = Some 5
  ∧ Heap.resources (Heap.setScoresMany [("Relevance", 5); ("Impact", 1)] Trial.savedHeap)
    = Heap.resources Trial.savedHeap.
Proof.
  assert (H : Heap.closed Trial.savedHeap).
  { split; [vm_compute; lia|]. repeat constructor. }
  destruct (saved_scores_immutable
              Trial.savedHeap [("Relevance", 5); ("Impact", 1)] H)
    as [(Hres & Hread & _) _].
  split; [exact H|]. split; [|split; [reflexivity|exact Hres]].
  eexists. split; [reflexivity|]. split; [reflexivity|].
  rewrite Hread; [reflexivity|]. apply list_elem_of_singleton. reflexivity.
Defined.

Lemma save_load_round_trip_witness :
  Store.load (Store.localStorage
                (Store.saveCurrentResource Scenario.uuidSource Scenario.page))
  = Js.Returned (Store.resources_to_json
      (Store.resources Scenario.page
       ++ [Store.savedEntry Scenario.uuidSource Scenario.page])).
Proof.
  exact (proj1 (save_load_round_trip Scenario.uuidSource Scenario.page)).
Defined.

(** * Further properties *)

(** ** The slider row *)

Section slider_facts.
Import Js Scale.

Lemma criteria_cases (label : string) :
  label ∈ Store.criteria →
  label = "Relevance" ∨ label = "Alignment" ∨ label = "Effectiveness"
  ∨ label = "Impact" ∨ label = "Sustainability" ∨ label = "Coherence".
Proof.
  intros H. repeat (apply elem_of_cons in H as [H|H]; [tauto|]).
  by apply elem_of_nil in H.
Qed.

Ltac each_criterion H :=
  apply criteria_cases in H;
  destruct H as [->|[->|[->|[->|[->| ->]]]]].

Ltac each_rating H :=
  apply rating_cases in H;
  destruct H as [->|[->|[->|[->| ->]]]].

Lemma SliderRow_in_range (label : string) (value : Z) :
  label ∈ Store.criteria → 1 ≤ value ≤ 5 →
  ∃ d f,
    SliderRow label value = Returned {| descriptor := Some d; full := Some f |}
    ∧ d ≠ "" ∧ f ≠ "" ∧ FULL_DEFS !! label = Some f
    ∧ (value = 3 →
         MID_AXIS_TEXT !! label = Some d
         ∧ (SCALE !! label ≫= (λ tiers, tiers !! 3)) ≠ Some d)
    ∧ (value ≠ 3 → (SCALE !! label ≫= (λ tiers, tiers !! value)) = Some d).
Proof.
  intros Hl Hv. each_criterion Hl; each_rating Hv;
    (do 2 eexists; split; [vm_compute; reflexivity|];
     split_and!; [done|done|reflexivity| |];
     intros Hv; first [done | split; [reflexivity| vm_compute; discriminate]
                      | vm_compute; reflexivity]).
Qed.

Lemma SliderRow_injective (label : string) (v1 v2 : Z) :
  label ∈ Store.criteria → 1 ≤ v1 ≤ 5 → 1 ≤ v2 ≤ 5 →
  shown (SliderRow label v1) = shown (SliderRow label v2) → v1 = v2.
Proof.
  intros Hl H1 H2. each_criterion Hl; each_rating H1; each_rating H2;
    first [reflexivity | vm_compute; discriminate].
Qed.

(** X1.  For each of the six criteria and every rating from 1 to 5 the
    slider row has a descriptor and a definition, neither empty.  At rating
    3 the descriptor is the text of [MID_AXIS_TEXT], which is not the tier-3
    text of [SCALE]; at every other rating it is the text of [SCALE].  No
    two ratings of a criterion share a descriptor. *)
Theorem SliderRow_descriptor (label : string) (value : Z) :
  label ∈ Store.criteria → 1 ≤ value ≤ 5 →
  (∃ d f,
    SliderRow label value = Returned {| descriptor := Some d; full := Some f |}
    ∧ d ≠ "" ∧ f ≠ "" ∧ FULL_DEFS !! label = Some f
    ∧ (value = 3 →
         MID_AXIS_TEXT !! label = Some d
         ∧ (SCALE !! label ≫= (λ tiers, tiers !! 3)) ≠ Some d)
    ∧ (value ≠ 3 → (SCALE !! label ≫= (λ tiers, tiers !! value)) = Some d))
  ∧ (∀ value', 1 ≤ value' ≤ 5 →
       shown (SliderRow label value') = shown (SliderRow label value) →
       value' = value).
Proof.
  intros Hl Hv. split; [by apply SliderRow_in_range|].
  intros value' Hv'. by apply SliderRow_injective.
Qed.

Lemma SCALE_tiers (label : string) (tiers : gmap Z string) (value : Z) :
  SCALE !! label = Some tiers → (is_Some (tiers !! value) ↔ 1 ≤ value ≤ 5).
Proof.
  intros Hs.
  assert (Hdom : dom tiers = {[1; 2; 3; 4; 5]}).
  { revert Hs. unfold SCALE.
    repeat (rewrite list_to_map_cons, lookup_insert;
            case_decide; [intros [= <-]; vm_compute; reflexivity|]).
    rewrite list_to_map_nil, lookup_empty. discriminate. }
  rewrite <- elem_of_dom, Hdom, !elem_of_union, !elem_of_singleton. lia.
Qed.

Lemma SCALE_labels (label : string) :
  is_Some (SCALE !! label) ↔ label ∈ Store.criteria.
Proof.
  rewrite <- elem_of_dom.
  assert (dom SCALE = list_to_set Store.criteria) as -> by (vm_compute; reflexivity).
  apply elem_of_list_to_set.
Qed.

(** X2.  A label that is neither one of the six criteria nor a name
    inherited from [Object.prototype] makes [SliderRow] throw ([SCALE[label]]
    is [undefined]).  For a criterion and a rating outside 1..5 nothing is
    shown as descriptor, while the definition is still there. *)
Theorem SliderRow_edges (label : string) (value : Z) :
  (label ∉ Store.criteria → label ∉ inherited →
     ∃ e, SliderRow label value = Thrown e)
  ∧ (label ∈ Store.criteria → ¬ 1 ≤ value ≤ 5 →
       SliderRow label value
       = Returned {| descriptor := None; full := FULL_DEFS !! label |}
       ∧ is_Some (FULL_DEFS !! label)).
Proof.
  split.
  - intros Hl _. rewrite <- SCALE_labels, <- eq_None_not_Some in Hl.
    unfold SliderRow. rewrite Hl. by eexists.
  - intros Hl Hv. pose proof Hl as [tiers Hs]%SCALE_labels.
    unfold SliderRow. rewrite Hs.
    assert (tiers !! value = None) as ->.
    { apply eq_None_not_Some. by rewrite (SCALE_tiers label tiers value Hs). }
    assert ((value =? 3) = false) as -> by (apply Z.eqb_neq; lia).
    split; [done|]. each_criterion Hl; vm_compute; eauto.
Qed.
End slider_facts.

Section legacy_scale_facts.
Import Js Scale.

Lemma SCALE_revisions :
  delete 3 <$> SCALE = delete 3 <$> LegacyScale.SCALE.
Proof. vm_compute. reflexivity. Qed.

Lemma SCALE_revisions_lookup (label : string) (value : Z) :
  value ≠ 3 →
  (SCALE !! label ≫= (λ tiers, Some (tiers !! value)))
  = (LegacyScale.SCALE !! label ≫= (λ tiers, Some (tiers !! value))).
Proof.
  intros Hv.
  pose proof (f_equal (λ m : gmap string (gmap Z string), m !! label)
                SCALE_revisions) as H.
  simpl in H. rewrite !lookup_fmap in H.
  destruct (SCALE !! label) as [t1|], (LegacyScale.SCALE !! label) as [t2|];
    simplify_eq/=; [|done].
  by rewrite <- (lookup_delete_ne t1 3 value), <- (lookup_delete_ne t2 3 value), H
    by done.
Qed.

(** X3.  The slider rows of the two revisions show the same texts at every
    rating but 3, whatever the label; at rating 3 they show two different
    texts, for each of the six criteria. *)
Theorem SliderRow_revisions (label : string) (value : Z) :
  (value ≠ 3 → LegacyScale.SliderRow label value = SliderRow label value)
  ∧ (label ∈ Store.criteria →
       ∃ d d', shown (LegacyScale.SliderRow label 3) = Some d
               ∧ shown (SliderRow label 3) = Some d' ∧ d ≠ d').
Proof.
  split.
  - intros Hv. pose proof (SCALE_revisions_lookup label value Hv) as H.
    unfold LegacyScale.SliderRow, SliderRow.
    assert ((value =? 3) = false) as -> by by apply Z.eqb_neq.
    destruct (SCALE !! label) as [t1|], (LegacyScale.SCALE !! label) as [t2|];
      simplify_eq/=; [|done].
    by rewrite H.
  - intros Hl. apply criteria_cases in Hl.
    destruct Hl as [->|[->|[->|[->|[->| ->]]]]];
      (do 2 eexists; split_and!; [vm_compute; reflexivity..|discriminate]).
Qed.
End legacy_scale_facts.

(** ** The engine, further *)

Section engine_more.
Import Engine.

Lemma getEdgeCoach_unfold (p : PairKey) (x y t : Z) :
  ∃ coach, MID_EDGE_COACH !! key_string p = Some coach
  ∧ getEdgeCoach p x y t =
      (if decide (y = 3 ∧ t ≤ x) then Some (y3_x4plus coach)
       else if decide (t ≤ y ∧ x = 3) then Some (y4plus_x3 coach)
       else if decide (y = 3 ∧ x = 3) then Some (y3_x3 coach)
       else None).
Proof.
  destruct (coach_present p) as [coach Hc]. exists coach. split; [done|].
  unfold getEdgeCoach. rewrite Hc. cbv zeta.
  destruct (y =? 3) eqn:Hy3, (x =? 3) eqn:Hx3,
           (x >=? t) eqn:Hxt, (y >=? t) eqn:Hyt; simpl;
    rewrite ?Z.eqb_eq, ?Z.eqb_neq, ?Z.geb_leb, ?Z.leb_le, ?Z.leb_gt in *;
    repeat case_decide; try reflexivity; lia.
Qed.

(** X4.  At threshold 4 an advisory is returned exactly when the evidence
    gate is active and neither rating is below 3; so whenever an advisory is
    shown the gate badge is shown with it. *)
Theorem coach_iff_gate (p : PairKey) (x y : Z) :
  (is_Some (getEdgeCoach p x y 4) ↔ gateActive x y = true ∧ 3 ≤ x ∧ 3 ≤ y)
  ∧ (is_Some (getEdgeCoach p x y 4) → Engine.panelGate x y = true).
Proof.
  destruct (getEdgeCoach_unfold p x y 4) as (coach & _ & ->).
  rewrite panelGate_gateActive, gateActive_iff, is_Some_alt.
  repeat case_decide; simpl; intuition lia.
Qed.

(** X5.  At any threshold [getEdgeCoach] returns an advisory only when a
    rating is 3, and exactly when one of its three conditions holds.  The
    rules are tried in order: at (3,3) a threshold of 3 or less makes the
    first rule answer, and the both-moderate advisory is returned only for
    a threshold above 3. *)
Theorem getEdgeCoach_threshold (p : PairKey) (x y t : Z) :
  (is_Some (getEdgeCoach p x y t) → x = 3 ∨ y = 3)
  ∧ (is_Some (getEdgeCoach p x y t)
     ↔ (y = 3 ∧ t ≤ x) ∨ (t ≤ y ∧ x = 3) ∨ (y = 3 ∧ x = 3))
  ∧ ∃ coach, MID_EDGE_COACH !! key_string p = Some coach
      ∧ (t ≤ 3 → getEdgeCoach p 3 3 t = Some (y3_x4plus coach))
      ∧ (3 < t → getEdgeCoach p 3 3 t = Some (y3_x3 coach)).
Proof.
  destruct (getEdgeCoach_unfold p x y t) as (coach & Hc & Hxy).
  destruct (getEdgeCoach_unfold p 3 3 t) as (coach' & Hc' & H33).
  assert (coach' = coach) as -> by congruence.
  split_and!.
  - rewrite Hxy, is_Some_alt. repeat case_decide; simpl; intuition lia.
  - rewrite Hxy, is_Some_alt. repeat case_decide; simpl; intuition lia.
  - exists coach. split_and!; [done|..]; intros Ht; rewrite H33;
      repeat case_decide; (reflexivity || lia).
Qed.

Lemma quadrant_name_injective (p p' : PairKey) (yb xb yb' xb' : bool)
    (q q' : QuadrantResult) :
  QUADRANTS !! quadrantCode p yb xb = Some q →
  QUADRANTS !! quadrantCode p' yb' xb' = Some q' →
  name q = name q' → p = p' ∧ yb = yb' ∧ xb = xb'.
Proof.
  destruct p, yb, xb; intros H; vm_compute in H; injection H as <-;
    destruct p', yb', xb'; intros H; vm_compute in H; injection H as <-;
    intros Hn; first [done | vm_compute in Hn; discriminate].
Qed.

Lemma geb_revisions (a : Z) : a ≠ 3 → (a >=? 3) = (a >=? 4).
Proof. intros Ha. rewrite !Z.geb_leb. destruct (3 <=? a) eqn:H3, (4 <=? a) eqn:H4; lia. Qed.

(** X7.  The two revisions of [useQuadrant] give the same result exactly
    when neither rating is 3. *)
Theorem useQuadrant_revisions (pair : PairKey) (x y : Z) :
  Legacy.useQuadrant pair x y = useQuadrant pair x y ↔ x ≠ 3 ∧ y ≠ 3.
Proof.
  split.
  - intros Heq. destruct (decide (x = 3 ∧ y = 3)) as [[-> ->]|Hne].
    { by destruct pair. }
    rewrite useQuadrant_else in Heq by done. unfold Legacy.useQuadrant in Heq.
    destruct (quadrant_present pair (y >=? 3) (x >=? 3)) as [q Hq].
    destruct (quadrant_present pair (y >=? 4) (x >=? 4)) as [q' Hq'].
    rewrite Hq, Hq' in Heq. injection Heq as <-.
    destruct (quadrant_name_injective _ _ _ _ _ _ _ _ Hq Hq' eq_refl)
      as (_ & Hy & Hx).
    rewrite !Z.geb_leb in Hx, Hy.
    destruct (3 <=? x) eqn:?, (4 <=? x) eqn:?, (3 <=? y) eqn:?, (4 <=? y) eqn:?;
      try discriminate; lia.
  - intros [Hx Hy]. rewrite useQuadrant_else by tauto.
    unfold Legacy.useQuadrant. by rewrite !geb_revisions.
Qed.

(** X8.  The name of a result tells the quadrant: two calls that return
    results of the same name are both at (3,3), or neither is and they have
    the same pair and the same two threshold bits. *)
Theorem useQuadrant_name_identifies (p p' : PairKey) (x y x' y' : Z)
    (q q' : QuadrantResult) :
  useQuadrant p x y = Some q → useQuadrant p' x' y' = Some q' →
  name q = name q' →
  ((x = 3 ∧ y = 3) ∧ (x' = 3 ∧ y' = 3))
  ∨ (¬ (x = 3 ∧ y = 3) ∧ ¬ (x' = 3 ∧ y' = 3)
     ∧ p = p' ∧ (x >=? 4) = (x' >=? 4) ∧ (y >=? 4) = (y' >=? 4)).
Proof.
  intros Hq Hq' Hn.
  destruct (decide (x = 3 ∧ y = 3)) as [Hm|Hm],
           (decide (x' = 3 ∧ y' = 3)) as [Hm'|Hm'].
  - by left.
  - destruct Hm as [-> ->]. rewrite useQuadrant_else in Hq' by done.
    apply quadrant_not_uncertain in Hq'.
    rewrite (useQuadrant_middle QUADRANTS p : useQuadrant p 3 3 = _) in Hq.
    injection Hq as <-. by rewrite <- Hn in Hq'.
  - destruct Hm' as [-> ->]. rewrite useQuadrant_else in Hq by done.
    apply quadrant_not_uncertain in Hq.
    rewrite (useQuadrant_middle QUADRANTS p' : useQuadrant p' 3 3 = _) in Hq'.
    injection Hq' as <-. by rewrite Hn in Hq.
  - right. rewrite useQuadrant_else in Hq, Hq' by done.
    destruct (quadrant_name_injective _ _ _ _ _ _ _ _ Hq Hq' Hn) as (? & ? & ?).
    done.
Qed.

Lemma coach_not_uncertain (p : PairKey) (coach : EdgeCoach) :
  MID_EDGE_COACH !! key_string p = Some coach →
  y3_x4plus coach ≠ desc Uncertain ∧ y4plus_x3 coach ≠ desc Uncertain
  ∧ y3_x3 coach ≠ desc Uncertain.
Proof. destruct p; intros H; vm_compute in H; injection H as <-; by vm_compute. Qed.

Lemma quadrant_desc_not_uncertain (p : PairKey) (yb xb : bool) (q : QuadrantResult) :
  QUADRANTS !! quadrantCode p yb xb = Some q → desc q ≠ desc Uncertain.
Proof. destruct p, yb, xb; intros H; vm_compute in H; injection H as <-; by vm_compute. Qed.

End engine_more.

(** ** The plot area *)

Section plot_area_facts.
Import Plot PlotArea.

(** X9.  For ratings 1..5 and both sizes, a higher X rating is drawn
    strictly further right and a higher Y rating strictly higher up (a
    smaller [cy]), and conversely; every point lies within the plot area,
    borders included. *)
Theorem toPos_monotone (compact : bool) (x x' y y' : Z) :
  1 ≤ x ≤ 5 → 1 ≤ x' ≤ 5 → 1 ≤ y ≤ 5 → 1 ≤ y' ≤ 5 →
  (x < x' ↔ (cx (toPos compact x y) <? cx (toPos compact x' y'))%float = true)
  ∧ (y < y' ↔ (cy (toPos compact x' y') <? cy (toPos compact x y))%float = true)
  ∧ (padding <=? cx (toPos compact x y))%float = true
  ∧ (cx (toPos compact x y) <=? padding + plotW compact)%float = true
  ∧ (padding <=? cy (toPos compact x y))%float = true
  ∧ (cy (toPos compact x y) <=? padding + plotH compact)%float = true.
Proof.
  intros Hx Hx' Hy Hy'.
  assert (Hcx : ∀ a b, 1 ≤ a ≤ 5 → 1 ≤ b ≤ 5 →
    (a < b ↔ (cx (toPos compact a y) <? cx (toPos compact b y'))%float = true)).
  { intros a b Ha%rating_cases Hb%rating_cases. destruct compact;
      destruct Ha as [->|[->|[->|[->| ->]]]];
      destruct Hb as [->|[->|[->|[->| ->]]]];
      vm_compute; split; (done || discriminate || lia). }
  assert (Hcy : ∀ a b, 1 ≤ a ≤ 5 → 1 ≤ b ≤ 5 →
    (a < b ↔ (cy (toPos compact x' b) <? cy (toPos compact x a))%float = true)).
  { intros a b Ha%rating_cases Hb%rating_cases. destruct compact;
      destruct Ha as [->|[->|[->|[->| ->]]]];
      destruct Hb as [->|[->|[->|[->| ->]]]];
      vm_compute; split; (done || discriminate || lia). }
  split_and!; [by apply Hcx|by apply Hcy|..];
    apply rating_cases in Hx, Hy; destruct compact;
    destruct Hx as [->|[->|[->|[->| ->]]]];
    destruct Hy as [->|[->|[->|[->| ->]]]]; reflexivity.
Qed.

Ltac each_rating H :=
  apply rating_cases in H;
  destruct H as [->|[->|[->|[->| ->]]]].

(** X10.  The shaded cells agree with the threshold 4: a point with no
    rating equal to 3 lies in exactly one of the four cells, the one of its
    quadrant (Y high is the top row, X high the right column).  A rating of
    3 puts the point on the line between two cells, so that at least two
    cells contain it. *)
Theorem point_cell (compact : bool) (x y : Z) :
  1 ≤ x ≤ 5 → 1 ≤ y ≤ 5 →
  (x ≠ 3 → y ≠ 3 →
     ∀ i r, rects compact !! i = Some r →
       (covers r (toPos compact x y) = true ↔ i = cellOf (y >=? 4) (x >=? 4)))
  ∧ (x = 3 → cx (toPos compact x y) = (padding + plotW compact / 2)%float)
  ∧ (y = 3 → cy (toPos compact x y) = (padding + plotH compact / 2)%float)
  ∧ (x = 3 ∨ y = 3 →
       (2 ≤ length (filter (λ r, covers r (toPos compact x y) = true)
                           (rects compact)))%nat).
Proof.
  intros Hx Hy. split_and!.
  - intros Hx3 Hy3 i r Hr.
    destruct i as [|[|[|[|i]]]]; [..|done]; injection Hr as <-;
      destruct compact; each_rating Hx; each_rating Hy; try done;
      vm_compute; split; (done || discriminate).
  - intros ->. by destruct compact.
  - intros ->. by destruct compact.
  - intros H3. destruct compact; each_rating Hx; each_rating Hy;
      first [by destruct H3 | vm_compute; lia].
Qed.
End plot_area_facts.

Section colour_facts.
Import Plot PlotArea Store.

Lemma legendColor_defined (i : nat) :
  ∃ c, legendColor i = Some c ∧ c ≠ "".
Proof.
  unfold legendColor.
  assert (Hlt : (i `mod` length COLORS < 8)%nat) by (apply Nat.mod_upper_bound; done).
  destruct (i `mod` length COLORS)%nat as [|[|[|[|[|[|[|[|n]]]]]]]] eqn:E;
    [by eexists..|lia].
Qed.

Lemma legendColor_same (i j : nat) :
  legendColor i = legendColor j ↔ (i `mod` 8 = j `mod` 8)%nat.
Proof.
  unfold legendColor. change (length COLORS) with 8%nat.
  assert (Hi : (i `mod` 8 < 8)%nat) by (apply Nat.mod_upper_bound; done).
  assert (Hj : (j `mod` 8 < 8)%nat) by (apply Nat.mod_upper_bound; done).
  split; [|by intros ->].
  assert (Hnd : NoDup COLORS) by compute_done.
  intros Heq.
  destruct (lookup_lt_is_Some_2 COLORS (i `mod` 8)) as [c Hc]; [done|].
  rewrite Hc in Heq. symmetry in Heq.
  by eapply NoDup_lookup.
Qed.

(** X11.  When the points of a pair can be built, there is one per saved
    resource, in the order of the list: the [i]-th has the two ratings and
    the name of the [i]-th resource and the colour [COLORS[i mod 8]], which
    is also the fill of its circle and the colour of its dot in the list.
    Two positions have the same colour exactly when they are equal
    modulo 8. *)
Theorem saved_point_colours (p : Engine.Pair) (st : State) (pts : list Point) :
  pairPoints p st = Some pts →
  length pts = length (resources st)
  ∧ ∀ i pt, pts !! i = Some pt →
      ∃ r c, resources st !! i = Some r
        ∧ SavedResource.scores r !! Engine.pair_x p = Some (pt_x pt)
        ∧ SavedResource.scores r !! Engine.pair_y p = Some (pt_y pt)
        ∧ pt_title pt = Some (SavedResource.name r)
        ∧ c ≠ ""
        ∧ pt_color pt = Some c ∧ fillOf i pt = Some c ∧ legendColor i = Some c
        ∧ ∀ j, legendColor j = Some c ↔ (j `mod` 8 = i `mod` 8)%nat.
Proof.
  unfold pairPoints. intros H%mapM_Some.
  pose proof (Forall2_length _ _ _ H) as Hlen. rewrite length_imap in Hlen.
  split; [done|]. intros i pt Hpt.
  destruct (Forall2_lookup_r _ _ _ _ _ H Hpt) as ([i' r] & Hir & Hf).
  rewrite list_lookup_imap in Hir.
  destruct (resources st !! i) as [r'|] eqn:Hr; [|done].
  simpl in Hir. injection Hir as <- <-. cbn [fst snd] in Hf.
  destruct (SavedResource.scores r' !! Engine.pair_x p) as [x|] eqn:Hx; [|done].
  destruct (SavedResource.scores r' !! Engine.pair_y p) as [y|] eqn:Hy; [|done].
  cbn [mbind option_bind] in Hf. injection Hf as <-.
  destruct (legendColor_defined i) as (c & Hc & Hne).
  exists r', c. unfold fillOf. cbn [pt_x pt_y pt_title pt_color].
  fold (legendColor i). rewrite Hc.
  split_and!; try done.
  - change (Scale.or_value (legendColor i) (Some c) = Some c).
    rewrite Hc. by destruct c.
  - intros j. rewrite <- Hc. apply legendColor_same.
Qed.
End colour_facts.

(** ** Sessions *)

Section session_facts.
Import Js Store Session.
Context `{codec : !JsonCodec}.

Lemma rated_initial : rated initialScores.
Proof.
  intros c Hc. apply criteria_cases in Hc.
  destruct Hc as [->|[->|[->|[->|[->| ->]]]]]; exists 3; (split; [reflexivity|lia]).
Qed.

Lemma rated_insert (s : gmap string Z) (c : string) (n : Z) :
  rated s → 1 ≤ n ≤ 5 → rated (<[c := n]> s).
Proof.
  intros Hs Hn c' Hc'. destruct (decide (c = c')) as [->|Hne].
  - exists n. by rewrite lookup_insert_eq.
  - rewrite lookup_insert_ne by done. by apply Hs.
Qed.

Lemma step_well_rated (st : State) (e : Event) :
  well_rated st → from_slider e → well_rated (step st e).
Proof.
  intros [Hs Hrs] He. destruct e as [c n|v|v|src|i]; simpl.
  - destruct He as [_ Hn]. split; [by apply rated_insert|done].
  - done.
  - done.
  - split; [done|]. apply Forall_app. split; [done|]. by apply Forall_singleton.
  - split; [done|]. by apply Forall_filter_keep.
Qed.

Lemma run_well_rated (events : list Event) (st : State) :
  well_rated st → Forall from_slider events → well_rated (run events st).
Proof.
  revert st. induction events as [|e events IH]; intros st Hst Hev; [done|].
  apply Forall_cons in Hev as [He Hev]. unfold run. cbn [foldl].
  apply IH; [by apply step_well_rated|done].
Qed.

Lemma pairs_criteria (p : Engine.Pair) :
  p ∈ Engine.PAIRS → Engine.pair_x p ∈ criteria ∧ Engine.pair_y p ∈ criteria.
Proof.
  intros Hp. repeat (apply elem_of_cons in Hp as [->|Hp]; [split; compute_done|]).
  by apply elem_of_nil in Hp.
Qed.

Lemma pairPoints_rated (p : Engine.Pair) (st : State) :
  p ∈ Engine.PAIRS →
  Forall (λ r, rated (SavedResource.scores r)) (resources st) →
  ∃ pts, pairPoints p st = Some pts
    ∧ Forall (λ pt, 1 ≤ Plot.pt_x pt ≤ 5 ∧ 1 ≤ Plot.pt_y pt ≤ 5) pts.
Proof.
  intros [Hx Hy]%pairs_criteria Hrs. unfold pairPoints.
  match goal with |- ∃ pts, mapM ?f ?l = _ ∧ _ =>
    assert (Hd : ∀ i ir, l !! i = Some ir →
              ∃ x y, SavedResource.scores ir.2 !! Engine.pair_x p = Some x
                     ∧ SavedResource.scores ir.2 !! Engine.pair_y p = Some y
                     ∧ 1 ≤ x ≤ 5 ∧ 1 ≤ y ≤ 5);
    [|destruct (mapM f l) as [pts|] eqn:Hm]
  end.
  - intros i ir Hir. apply list_lookup_imap_Some in Hir as (r & Hr & ->).
    eapply Forall_lookup_1 in Hrs; [|done]. simpl.
    destruct (Hrs _ Hx) as (x & ? & ?). destruct (Hrs _ Hy) as (y & ? & ?).
    by exists x, y.
  - exists pts. split; [done|]. apply mapM_Some in Hm.
    apply Forall_lookup. intros i pt Hpt.
    destruct (Forall2_lookup_r _ _ _ _ _ Hm Hpt) as (ir & Hir & Hf).
    destruct (Hd i ir Hir) as (x & y & Hrx & Hry & Hxr & Hyr).
    rewrite Hrx, Hry in Hf. cbn [mbind option_bind] in Hf.
    by injection Hf as <-.
  - exfalso. apply eq_None_not_Some in Hm. apply Hm.
    apply mapM_is_Some, Forall_lookup. intros i ir Hir.
    destruct (Hd i ir Hir) as (x & y & Hrx & Hry & _). simpl.
    rewrite Hrx, Hry. by eexists.
Qed.

(** X12.  Ratings stay in range.  From a state whose scores, live and
    saved, rate all six criteria from 1 to 5, any sequence of events whose
    slider moves are those the sliders can send leads to such a state.  In
    it every pair has both ratings, its gate and its summary line are
    defined, and the points of the saved resources can be built and carry
    ratings from 1 to 5. *)
Theorem ratings_stay_in_range (events : list Event) (st : State) :
  well_rated st → Forall from_slider events →
  let st' := run events st in
  well_rated st'
  ∧ ∀ p, p ∈ Engine.PAIRS →
      (∃ x y, scores st' !! Engine.pair_x p = Some x
              ∧ scores st' !! Engine.pair_y p = Some y
              ∧ 1 ≤ x ≤ 5 ∧ 1 ≤ y ≤ 5
              ∧ summaryGate p st' = Some (Engine.gateActive x y)
              ∧ is_Some (summaryView p st'))
      ∧ ∃ pts, pairPoints p st' = Some pts
          ∧ Forall (λ pt, 1 ≤ Plot.pt_x pt ≤ 5 ∧ 1 ≤ Plot.pt_y pt ≤ 5) pts.
Proof.
  intros Hst Hev st'. pose proof (run_well_rated events st Hst Hev) as Hst'.
  split; [done|]. intros p Hp. destruct Hst' as [Hs Hrs].
  split; [|by apply pairPoints_rated].
  destruct (pairs_criteria p Hp) as [Hx Hy].
  destruct (Hs _ Hx) as (x & Hsx & Hxr). destruct (Hs _ Hy) as (y & Hsy & Hyr).
  exists x, y. fold st' in Hsx, Hsy. unfold summaryGate, summaryView.
  rewrite Hsx, Hsy. cbn [mbind option_bind].
  split_and!; try done; try lia. unfold Engine.summaryText.
  destruct (useQuadrant_defined (Engine.key p) x y) as [q Hq].
  rewrite Hq. by eexists.
Qed.

Lemma start_well_rated (ls : gmap string string) (st : State) :
  start ls = Some st →
  Forall (λ r, rated (SavedResource.scores r)) (resources st) → well_rated st.
Proof.
  unfold start. destruct (load ls) as [v|]; [|done].
  destruct (json_to_resources v) as [rs|]; [|done]. simpl.
  intros [= <-] Hrs. split; [apply rated_initial|done].
Qed.

Lemma stored_saveAll (next : list SavedResource.t) (st : State) :
  stored (localStorage (saveAll next st)) = Some next.
Proof.
  unfold stored. rewrite (load_stored _ next) by apply saveAll_blob.
  apply json_to_resources_of.
Qed.

Lemma step_persisted (st : State) (e : Event) :
  persisted st → persisted (step st e).
Proof.
  intros Hst. destruct e as [c n|v|v|src|i]; try exact Hst.
  - apply stored_saveAll.
  - apply stored_saveAll.
Qed.

Lemma run_persisted (events : list Event) (st : State) :
  persisted st → persisted (run events st).
Proof.
  revert st. induction events as [|e events IH]; intros st Hst; [done|].
  unfold run. cbn [foldl]. by apply IH, step_persisted.
Qed.

Lemma start_persisted (ls : gmap string string) (st : State) :
  start ls = Some st → persisted st.
Proof.
  unfold start, persisted, stored. destruct (load ls) as [v|] eqn:Hl; [|done].
  destruct (json_to_resources v) as [rs|] eqn:Hv; [|done]. simpl.
  intros [= <-]. simpl. by rewrite Hl.
Qed.

Lemma start_of_stored (ls : gmap string string) (rs : list SavedResource.t) :
  stored ls = Some rs →
  start ls = Some {| pairKey := Engine.RAID; scores := initialScores;
                     resources := rs; resourceName := "";
                     localStorage := ls |}.
Proof.
  unfold start, stored. destruct (load ls) as [v|]; [|done].
  by intros ->.
Qed.

(** X13.  A restart recovers the list.  After any sequence of events on a
    page that started from the storage, starting again from the storage
    gives the saved resources held in memory; the ratings and the pending
    name are not kept: they are the initial ones. *)
Theorem restart_recovers (ls : gmap string string) (st0 : State)
    (events : list Event) :
  start ls = Some st0 →
  let st := run events st0 in
  start (localStorage st)
  = Some {| pairKey := Engine.RAID; scores := initialScores;
            resources := resources st; resourceName := "";
            localStorage := localStorage st |}.
Proof.
  intros Hs st. apply start_of_stored.
  apply run_persisted. by eapply start_persisted.
Qed.

Lemma state_eq (a b : State) :
  pairKey a = pairKey b → scores a = scores b → resources a = resources b →
  resourceName a = resourceName b → localStorage a = localStorage b → a = b.
Proof. destruct a, b; simpl; congruence. Qed.

(** X14.  Deleting twice by the same identifier is deleting once, and two
    deletions can be made in either order: the state, storage included, is
    the same. *)
Theorem deleteResource_algebra (i j : string) (st : State) :
  deleteResource i (deleteResource i st) = deleteResource i st
  ∧ deleteResource i (deleteResource j st) = deleteResource j (deleteResource i st).
Proof.
  assert (Hii : filter (λ r, SavedResource.id r ≠ i)
                  (filter (λ r, SavedResource.id r ≠ i) (resources st))
                = filter (λ r, SavedResource.id r ≠ i) (resources st)).
  { rewrite list_filter_filter. apply list_filter_iff. tauto. }
  assert (Hij : filter (λ r, SavedResource.id r ≠ i)
                  (filter (λ r, SavedResource.id r ≠ j) (resources st))
                = filter (λ r, SavedResource.id r ≠ j)
                    (filter (λ r, SavedResource.id r ≠ i) (resources st))).
  { rewrite !list_filter_filter. apply list_filter_iff. tauto. }
  split; apply state_eq; try done; unfold deleteResource, saveAll, setItem; simpl.
  - by rewrite insert_insert_eq, Hii.
  - by rewrite !insert_insert_eq, Hij.
Qed.

(** X15.  Deleting by the identifier just given to a saved entry removes
    that entry and every older entry with the same identifier.  When no
    older entry has it, the list is the one before the save, and so is the
    list the storage holds. *)
Theorem save_then_delete (src : IdSource) (st : State) :
  let st' := deleteResource (newId src) (saveCurrentResource src st) in
  resources st' = filter (λ r, SavedResource.id r ≠ newId src) (resources st)
  ∧ (length (resources st') ≤ length (resources st))%nat
  ∧ (Forall (λ r, SavedResource.id r ≠ newId src) (resources st) →
       resources st' = resources st
       ∧ stored (localStorage st') = Some (resources st))
  ∧ (∀ r, r ∈ resources st → SavedResource.id r = newId src → r ∉ resources st').
Proof.
  intros st'.
  assert (Hr : resources st'
               = filter (λ r, SavedResource.id r ≠ newId src) (resources st)).
  { subst st'. rewrite deleteResource_resources, saveCurrentResource_resources.
    rewrite filter_app, filter_cons_False, filter_nil, app_nil_r; [done|].
    simpl. tauto. }
  split_and!.
  - done.
  - rewrite Hr. apply length_filter.
  - intros Hfresh. rewrite Hr, (filter_all _ _ Hfresh). split; [done|].
    subst st'. unfold deleteResource. rewrite stored_saveAll.
    rewrite saveCurrentResource_resources, filter_app, filter_cons_False,
      filter_nil, app_nil_r by (simpl; tauto).
    by rewrite (filter_all _ _ Hfresh).
  - intros r _ Hid. rewrite Hr, list_elem_of_filter. tauto.
Qed.

Lemma filter_removes_one {A B} `{EqDecision B} (f : A → B) (l : list A) (b : B) :
  NoDup (f <$> l) → b ∈ f <$> l →
  (length (filter (λ a, f a ≠ b) l) + 1 = length l)%nat.
Proof.
  induction l as [|a l IH]; intros Hnd Hin; [by apply elem_of_nil in Hin|].
  rewrite fmap_cons in Hnd, Hin. apply NoDup_cons in Hnd as [Ha Hnd].
  destruct (decide (f a = b)) as [<-|Hne].
  - rewrite filter_cons_False by tauto. simpl.
    rewrite filter_all; [lia|].
    apply Forall_forall. intros a' Ha' Heq. apply Ha. rewrite <- Heq.
    by apply list_elem_of_fmap_2.
  - rewrite filter_cons_True by done. simpl.
    apply elem_of_cons in Hin as [Hin|Hin]; [congruence|].
    specialize (IH Hnd Hin). lia.
Qed.

(** X16.  While identifiers are distinct, deleting by an identifier of the
    list removes exactly one entry; deleting keeps identifiers distinct, and
    so does saving under an identifier that is not in the list. *)
Theorem delete_removes_one (i : string) (st : State) :
  NoDup (SavedResource.id <$> resources st) →
  (i ∈ SavedResource.id <$> resources st →
     (length (resources (deleteResource i st)) + 1 = length (resources st))%nat)
  ∧ NoDup (SavedResource.id <$> resources (deleteResource i st))
  ∧ (∀ src, newId src ∉ SavedResource.id <$> resources st →
       NoDup (SavedResource.id <$> resources (saveCurrentResource src st))).
Proof.
  intros Hnd. split_and!.
  - intros Hin. rewrite deleteResource_resources. by apply filter_removes_one.
  - rewrite deleteResource_resources.
    apply (sublist_NoDup _ (SavedResource.id <$> resources st)); [done|].
    apply fmap_sublist, sublist_filter.
  - intros src Hfresh. rewrite saveCurrentResource_resources, fmap_app.
    apply NoDup_app. split_and!; [done| |apply NoDup_singleton].
    intros x Hx Hx'. apply list_elem_of_singleton in Hx'. simpl in Hx'. by subst.
Qed.
End session_facts.

Section panel_facts.
Import Store Session.

Lemma pair_found (st : State) :
  ∃ p, pair st = Some p ∧ Engine.key p = pairKey st ∧ p ∈ Engine.PAIRS.
Proof.
  unfold pair. destruct (pairKey st); eexists; (split; [reflexivity|]);
    (split; [reflexivity|]); unfold Engine.PAIRS; rewrite !elem_of_cons; auto.
Qed.

(** X17.  The active pair is always found in [PAIRS], and its tab panel
    shows the quadrant name and the text that its summary card shows. *)
Theorem active_panel_agrees (st : State) :
  ∃ p, pair st = Some p ∧ Engine.key p = pairKey st ∧ p ∈ Engine.PAIRS
    ∧ panelView p st = summaryView p st.
Proof.
  destruct (pair_found st) as (p & Hp & Hk & Hin).
  exists p. split_and!; try done.
  unfold panelView, summaryView. rewrite Hp. cbn [mbind option_bind].
  destruct (scores st !! Engine.pair_x p) as [x|]; [|done].
  destruct (scores st !! Engine.pair_y p) as [y|]; [|done].
  cbn [mbind option_bind]. unfold Engine.summaryText, Engine.panelText.
  by destruct (Engine.useQuadrant (Engine.key p) x y).
Qed.

Lemma summaryText_not_uncertain (k : Engine.PairKey) (x y : Z) (n d : string) :
  Engine.summaryText k x y = Some (n, d) → d ≠ Engine.desc Engine.Uncertain.
Proof.
  destruct (getEdgeCoach_unfold k x y 4) as (coach & Hc & Hxy).
  destruct (coach_not_uncertain k coach Hc) as (H1 & H2 & H3).
  unfold Engine.summaryText.
  destruct (Engine.useQuadrant k x y) as [q|] eqn:Hq; [|done]. simpl.
  intros [= <- <-]. rewrite Hxy. repeat case_decide; simpl; try done.
  rewrite useQuadrant_else in Hq by tauto.
  by eapply quadrant_desc_not_uncertain.
Qed.

Lemma panelView_active (st : State) (p : Engine.Pair) :
  pair st = Some p → panelView p st = summaryView p st.
Proof.
  intros Hp. unfold panelView, summaryView. rewrite Hp. cbn [mbind option_bind].
  destruct (scores st !! Engine.pair_x p) as [x|]; [|done].
  destruct (scores st !! Engine.pair_y p) as [y|]; [|done].
  cbn [mbind option_bind]. unfold Engine.summaryText, Engine.panelText.
  by destruct (Engine.useQuadrant (Engine.key p) x y).
Qed.

Lemma summaryView_not_uncertain (st : State) (p : Engine.Pair) (n d : string) :
  summaryView p st = Some (n, d) → d ≠ Engine.desc Engine.Uncertain.
Proof.
  unfold summaryView.
  destruct (scores st !! Engine.pair_x p) as [x|]; [|done].
  destruct (scores st !! Engine.pair_y p) as [y|]; [|done].
  cbn [mbind option_bind]. apply summaryText_not_uncertain.
Qed.

(** X6.  The description of the "Uncertain" result is never displayed in a
    summary card, nor in the tab panel of the active pair: at (3,3), the
    only ratings that give "Uncertain", both show the name "Uncertain" with
    the both-moderate advisory of the pair in the place of the description.
    The panel of a pair that is not the active one takes its name and
    description from the quadrant of the active pair: when the active pair
    is rated (3,3) and the panel's own pair gets no advisory, that panel
    evaluates to the "Uncertain" description. *)
Theorem uncertain_description_never_shown (st : State) (p : Engine.Pair) :
  (∀ k x y n d, Engine.summaryText k x y = Some (n, d) →
     d ≠ Engine.desc Engine.Uncertain)
  ∧ (∀ n d, summaryView p st = Some (n, d) → d ≠ Engine.desc Engine.Uncertain)
  ∧ (pair st = Some p →
       ∀ n d, panelView p st = Some (n, d) → d ≠ Engine.desc Engine.Uncertain)
  ∧ (scores st !! Engine.pair_x p = Some 3 →
     scores st !! Engine.pair_y p = Some 3 →
       ∃ coach,
         Engine.MID_EDGE_COACH !! Engine.key_string (Engine.key p) = Some coach
         ∧ summaryView p st = Some ("Uncertain", Engine.y3_x3 coach)
         ∧ (pair st = Some p →
              panelView p st = Some ("Uncertain", Engine.y3_x3 coach)))
  ∧ (∀ active x y,
       pair st = Some active →
       scores st !! Engine.pair_x active = Some 3 →
       scores st !! Engine.pair_y active = Some 3 →
       scores st !! Engine.pair_x p = Some x →
       scores st !! Engine.pair_y p = Some y →
       Engine.getEdgeCoach (Engine.key p) x y 4 = None →
       panelView p st = Some ("Uncertain", Engine.desc Engine.Uncertain)).
Proof.
  split_and!.
  - apply summaryText_not_uncertain.
  - apply summaryView_not_uncertain.
  - intros Hp n d. rewrite (panelView_active st p Hp).
    apply summaryView_not_uncertain.
  - intros Hx Hy. destruct (coach_present (Engine.key p)) as [coach Hc].
    exists coach. split; [done|].
    assert (Hs : summaryView p st = Some ("Uncertain", Engine.y3_x3 coach)).
    { unfold summaryView. rewrite Hx, Hy. cbn [mbind option_bind].
      unfold Engine.summaryText, Engine.getEdgeCoach. rewrite Hc. reflexivity. }
    split; [done|]. intros Hp. by rewrite (panelView_active st p Hp).
  - intros active x y Ha Hax Hay Hx Hy Hnone.
    unfold panelView. rewrite Ha. cbn [mbind option_bind].
    rewrite Hax, Hay. cbn [mbind option_bind].
    rewrite (useQuadrant_middle Engine.QUADRANTS (Engine.key active)
             : Engine.useQuadrant _ 3 3 = _).
    cbn [mbind option_bind]. rewrite Hx, Hy. cbn [mbind option_bind].
    unfold Engine.panelText. by rewrite Hnone.
Qed.
End panel_facts.

(** ** Export *)

Section export_facts.
Import Js Snapshot.

(** A finite number minus itself is zero. *)
Lemma float_sub_diag (h : float) :
  is_Some (Plot.float_value h) → (h - h)%float = 0%float.
Proof.
  intros [q Hq]. apply Prim2SF_inj. rewrite sub_spec.
  unfold Plot.float_value in Hq.
  destruct (Prim2SF h) as [s|s| |s m e]; try discriminate.
  - by destruct s.
  - unfold SF64sub, SFsub. by rewrite Z.sub_diag.
Qed.

Lemma addPages_single (fuel : nat) (pageHeight h : float) :
  (pageHeight - 40 <? h)%float = false →
  addPages (S fuel) pageHeight h h = ([], true).
Proof. intros Hle. cbn [addPages]. by rewrite Hle. Qed.

Lemma addPages_first (fuel : nat) (pageHeight h : float) :
  is_Some (Plot.float_value h) → (pageHeight - 40 <? h)%float = true →
  ∃ ys ended, addPages (S fuel) pageHeight h h = (20%float :: ys, ended).
Proof.
  intros Hfin Hgt. cbn [addPages]. rewrite Hgt, (float_sub_diag h Hfin).
  destruct (addPages fuel _ _ _) as [ys ended]. by exists ys, ended.
Qed.

Lemma marker_removed (cl : gset string) :
  ({["print-safe"]} ∪ cl) ∖ {["print-safe"]} = cl ∖ {["print-safe"]}.
Proof.
  by rewrite difference_union_distr_l_L, difference_diag_L, union_empty_l_L.
Qed.

Ltac body_case :=
  split_and!;
  [ reflexivity
  | intros; try discriminate; reflexivity
  | intros; try discriminate; eauto
  | intros [? ?]; try discriminate; eauto ].

(** The loop, round by round: when its guard holds for the first [n]
    values of [remaining] and fails for the next, it ends, having added one
    page per round. *)
Lemma addPages_rounds (pageHeight imgHeight : float) (n : nat) :
  ∀ (fuel : nat) (remaining : float),
    (∀ i, (i < n)%nat →
       (pageHeight - 40
        <? Nat.iter i (λ r, r - (pageHeight - 40)) remaining)%float = true) →
    (pageHeight - 40
     <? Nat.iter n (λ r, r - (pageHeight - 40)) remaining)%float = false →
    (n < fuel)%nat →
    addPages fuel pageHeight imgHeight remaining
    = ((λ i, 20 - (imgHeight
                   - Nat.iter i (λ r, r - (pageHeight - 40)) remaining))%float
         <$> seq 0 n, true).
Proof.
  induction n as [|n IH]; intros fuel remaining Hgo Hstop Hfuel;
    (destruct fuel as [|fuel]; [lia|]); cbn [addPages].
  - cbn [Nat.iter nat_rect] in Hstop. by rewrite Hstop.
  - pose proof (Hgo 0%nat ltac:(lia)) as H0. cbn [Nat.iter nat_rect] in H0.
    rewrite H0.
    rewrite (IH fuel (remaining - (pageHeight - 40))%float).
    + cbn [seq fmap list_fmap]. f_equal. f_equal.
      rewrite <- fmap_S_seq, <- list_fmap_compose.
      apply list_fmap_ext. intros _ i _. unfold compose.
      by rewrite Nat.iter_succ_r.
    + intros i Hi. pose proof (Hgo (S i) ltac:(lia)) as Hi'.
      rewrite Nat.iter_succ_r in Hi'. exact Hi'.
    + rewrite Nat.iter_succ_r in Hstop. exact Hstop.
    + lia.
Qed.

(** The loop ends within [fuel] rounds exactly when its guard fails for one
    of the first [fuel] values of [remaining], having held for those
    before. *)
Lemma addPages_ends (pageHeight imgHeight : float) (fuel : nat) :
  ∀ remaining : float,
    (addPages fuel pageHeight imgHeight remaining).2 = true
    ↔ ∃ n, (n < fuel)%nat
        ∧ (∀ i, (i < n)%nat →
             (pageHeight - 40
              <? Nat.iter i (λ r, r - (pageHeight - 40)) remaining)%float = true)
        ∧ (pageHeight - 40
           <? Nat.iter n (λ r, r - (pageHeight - 40)) remaining)%float = false.
Proof.
  induction fuel as [|fuel IH]; intros remaining; cbn [addPages].
  - split; [done|]. intros (n & Hn & _). lia.
  - destruct (pageHeight - 40 <? remaining)%float eqn:Hg.
    + specialize (IH (remaining - (pageHeight - 40))%float).
      destruct (addPages fuel pageHeight imgHeight _) as [ys ended].
      cbn [snd] in *. rewrite IH. split.
      * intros (n & Hn & Hgo & Hstop). exists (S n). split_and!; [lia| |].
        -- intros [|i] Hi; [exact Hg|]. rewrite Nat.iter_succ_r. apply Hgo. lia.
        -- by rewrite Nat.iter_succ_r.
      * intros ([|n] & Hn & Hgo & Hstop).
        -- cbn [Nat.iter nat_rect] in Hstop. congruence.
        -- exists n. split_and!; [lia| |].
           ++ intros i Hi. pose proof (Hgo (S i) ltac:(lia)) as Hi'.
              by rewrite Nat.iter_succ_r in Hi'.
           ++ by rewrite Nat.iter_succ_r in Hstop.
    + cbn [snd]. split; [|done]. intros _. exists 0%nat.
      split_and!; [lia| |done]. intros i Hi. lia.
Qed.

Lemma handleExport_pdf_ends (env : Env) (c : Canvas) (imgData : string)
    (fuel : nat) (dom : Dom) :
  node env = true → canvas env = Returned c → jpeg c = Returned imgData →
  is_Some (handleExport pdf_type fuel env dom)
  ↔ (addPages fuel (pageHeight env)
       (height c * (pageWidth env - 40) / width c)
       (height c * (pageWidth env - 40) / width c)).2 = true.
Proof.
  intros Hn Hc Hj. unfold handleExport, exportBody. rewrite Hn, Hc, Hj.
  destruct (addPages _ _ _ _) as [ys []]; cbn [snd]; split; try done;
    first [by intros [? ?] | by eexists].
Qed.

(** X18.  The pages of the PDF.  An image that is not taller than the
    page without its margins gives one page, with the image at [y = 20].
    For a taller image of finite height the first page the loop adds has the
    image at [y = 20] again, whether or not the loop ends: [y] is computed
    before [remaining] is reduced, so the top of the image is printed on the
    first two pages.  When the guard of the loop holds for the first
    [k + 1] values of [remaining] and fails for the next, the export ends
    for every fuel above [k + 1], with [k + 2] pages whose offsets are
    20, 20 and then 20 less what the rounds before have taken off; and
    every export of a taller image that ends gave these first two pages.
    For any image, the export ends within a given fuel exactly when the
    guard fails for one of that many first values of [remaining], having
    held for those before. *)
Theorem pdf_first_page_twice (env : Env) (c : Canvas) (imgData : string) :
  node env = true → canvas env = Returned c → jpeg c = Returned imgData →
  let imgWidth := (pageWidth env - 40)%float in
  let imgHeight := (height c * imgWidth / width c)%float in
  ((pageHeight env - 40 <? imgHeight)%float = false →
     ∀ fuel dom,
       handleExport pdf_type (S fuel) env dom
       = Some (Returned (),
               {| classList := classList dom ∖ {["print-safe"]};
                  downloads := downloads dom
                    ++ [(fileName env ".pdf",
                         PdfFile imgData imgWidth imgHeight [20%float])] |}))
  ∧ (is_Some (Plot.float_value imgHeight) →
     (pageHeight env - 40 <? imgHeight)%float = true →
     (∀ fuel, ∃ ys ended,
        addPages (S fuel) (pageHeight env) imgHeight imgHeight
        = (20%float :: ys, ended))
     ∧ (∀ k,
          (∀ i, (i ≤ k)%nat →
             (pageHeight env - 40
              <? remainingAfter (pageHeight env) imgHeight i)%float = true) →
          (pageHeight env - 40
           <? remainingAfter (pageHeight env) imgHeight (S k))%float = false →
          ∀ fuel dom, (S k < fuel)%nat →
            handleExport pdf_type fuel env dom
            = Some (Returned (),
                    {| classList := classList dom ∖ {["print-safe"]};
                       downloads := downloads dom
                         ++ [(fileName env ".pdf",
                              PdfFile imgData imgWidth imgHeight
                                (20%float :: 20%float
                                 :: ((λ i, 20 - (imgHeight
                                       - remainingAfter (pageHeight env) imgHeight i))%float
                                     <$> seq 1 k)))] |}))
     ∧ (∀ fuel dom res dom',
          handleExport pdf_type fuel env dom = Some (res, dom') →
          ∃ ys, res = Returned ()
            ∧ downloads dom'
              = downloads dom
                ++ [(fileName env ".pdf",
                     PdfFile imgData imgWidth imgHeight
                       (20%float :: 20%float :: ys))]))
  ∧ (∀ fuel dom,
       is_Some (handleExport pdf_type fuel env dom)
       ↔ ∃ n, (n < fuel)%nat
           ∧ (∀ i, (i < n)%nat →
                (pageHeight env - 40
                 <? remainingAfter (pageHeight env) imgHeight i)%float = true)
           ∧ (pageHeight env - 40
              <? remainingAfter (pageHeight env) imgHeight n)%float = false).
Proof.
  intros Hn Hc Hj imgWidth imgHeight. split; [|split].
  - intros Hle fuel dom. unfold handleExport, exportBody.
    rewrite Hn, Hc, Hj. fold imgWidth. fold imgHeight.
    rewrite (addPages_single fuel _ _ Hle). cbn [classList downloads].
    by rewrite marker_removed.
  - intros Hfin Hgt. split_and!.
    + intros fuel. by apply addPages_first.
    + intros k Hgo Hstop fuel dom Hfuel. unfold handleExport, exportBody.
      rewrite Hn, Hc, Hj. fold imgWidth. fold imgHeight.
      rewrite (addPages_rounds (pageHeight env) imgHeight (S k) fuel imgHeight);
        [| intros i Hi; apply Hgo; lia | exact Hstop | exact Hfuel].
      cbn [classList downloads seq fmap list_fmap]. rewrite marker_removed.
      cbn [Nat.iter nat_rect]. by rewrite (float_sub_diag imgHeight Hfin).
    + intros fuel dom res dom'. unfold handleExport, exportBody.
      rewrite Hn, Hc, Hj. fold imgWidth. fold imgHeight.
      destruct fuel as [|fuel]; [done|].
      destruct (addPages_first fuel (pageHeight env) imgHeight Hfin Hgt)
        as (ys & ended & ->).
      destruct ended; [|done]. intros [= <- <-]. by exists ys.
  - intros fuel dom.
    rewrite (handleExport_pdf_ends env c imgData fuel dom Hn Hc Hj).
    apply addPages_ends.
Qed.

(** X19.  The marker class.  Without a summary node the export does
    nothing.  With one, however the export ends, the class list is the one
    before without "print-safe"; a failed export starts no download and a
    successful one starts exactly one; a failed rasterisation makes the
    export fail.  A PNG export and an export whose rasterisation fails end
    whatever the fuel. *)
Theorem export_marker (type : ExportType) (fuel : nat) (env : Env) (dom : Dom) :
  (node env = false → handleExport type fuel env dom = Some (Returned (), dom))
  ∧ ((type = png_type ∨ ∃ e, canvas env = Thrown e) →
       is_Some (handleExport type fuel env dom))
  ∧ (∀ res dom', handleExport type fuel env dom = Some (res, dom') →
       node env = true →
       classList dom' = classList dom ∖ {["print-safe"]}
       ∧ ("print-safe" ∉ classList dom')
       ∧ (∀ e, res = Thrown e → downloads dom' = downloads dom)
       ∧ (res = Returned () →
            ∃ name a, downloads dom' = downloads dom ++ [(name, a)])
       ∧ ((∃ e, canvas env = Thrown e) → ∃ e, res = Thrown e)).
Proof.
  split_and!.
  - intros Hn. unfold handleExport. by rewrite Hn.
  - intros Hpath. unfold handleExport, exportBody. destruct (node env); [|done].
    destruct (canvas env) as [c|e] eqn:Hc; [|done].
    destruct Hpath as [->|[e He]]; [|done].
    by destruct (png c).
  - intros res dom' Hrun Hn. unfold handleExport in Hrun. rewrite Hn in Hrun.
    destruct (exportBody _ _ _ _) as [[res1 dom1]|] eqn:Hb; [|done].
    injection Hrun as <- <-. cbn [classList downloads].
    assert (Hcl : classList dom1 = {["print-safe"]} ∪ classList dom
                  ∧ (∀ e, res1 = Thrown e → downloads dom1 = downloads dom)
                  ∧ (res1 = Returned () →
                       ∃ name a, downloads dom1 = downloads dom ++ [(name, a)])
                  ∧ ((∃ e, canvas env = Thrown e) → ∃ e, res1 = Thrown e)).
    { unfold exportBody in Hb.
      destruct (canvas env) as [c|e]; [|injection Hb as <- <-; body_case].
      destruct type.
      - destruct (png c); injection Hb as <- <-; body_case.
      - destruct (jpeg c); [|injection Hb as <- <-; body_case].
        destruct (addPages _ _ _ _) as [ys []]; [|done].
        injection Hb as <- <-. body_case. }
    destruct Hcl as (-> & Hthrown & Hret & Hfail).
    split_and!; try done.
    + apply marker_removed.
    + intros [_ Hm]%elem_of_difference. by apply Hm, elem_of_singleton.
Qed.


End export_facts.

(** ** Names and identifiers *)

Section naming_facts.
Import Js Store.
Context `{codec : !JsonCodec}.

Lemma pretty_N_go_nonempty (x : N) (s : string) : s ≠ "" → pretty_N_go x s ≠ "".
Proof.
  revert s. induction (N.lt_wf_0 x) as [x _ IH]; intros s Hs.
  destruct (decide (x = 0)%N) as [->|Hx]; [by rewrite pretty_N_go_0|].
  rewrite pretty_N_go_step by lia. apply IH; [|done].
  apply N.div_lt; lia.
Qed.

Lemma pretty_N_nonempty (x : N) : pretty x ≠ "".
Proof.
  unfold pretty, pretty_N. case_decide; [done|].
  rewrite pretty_N_go_step by lia. by apply pretty_N_go_nonempty.
Qed.

Lemma pretty_Z_nonempty (z : Z) : pretty z ≠ "".
Proof.
  destruct z as [|p|p]; [done|apply pretty_N_nonempty|].
  unfold pretty, pretty_Z. done.
Qed.

Lemma or_string_nonempty (a : option string) (b : string) :
  b ≠ "" → or_string a b ≠ "".
Proof. by destruct a as [[|c s]|]. Qed.

(** X21.  An identifier is never empty.  Without [crypto.randomUUID] two
    saves get the same identifier exactly when they happen at the same
    [Date.now()]; deleting by that identifier then removes both entries. *)
Theorem newId_fallback (src src' : IdSource) :
  newId src ≠ ""
  ∧ (randomUUID src = None → randomUUID src' = None →
       (newId src = newId src' ↔ now src = now src'))
  ∧ (∀ st, randomUUID src = None → randomUUID src' = None → now src = now src' →
       let st2 := saveCurrentResource src' (saveCurrentResource src st) in
       Forall (λ r, SavedResource.id r ≠ newId src)
              (resources (deleteResource (newId src) st2))
       ∧ (length (resources (deleteResource (newId src) st2))
          ≤ length (resources st))%nat).
Proof.
  split_and!.
  - apply or_string_nonempty, pretty_Z_nonempty.
  - intros Hu Hu'. unfold newId. rewrite Hu, Hu'. simpl.
    split; [apply (inj pretty)|by intros ->].
  - intros st Hu Hu' Hnow st2.
    assert (Hid : newId src' = newId src).
    { unfold newId. by rewrite Hu, Hu', Hnow. }
    split.
    + apply Forall_forall. intros r Hr.
      rewrite deleteResource_resources in Hr.
      by apply list_elem_of_filter in Hr as [? _].
    + subst st2. rewrite deleteResource_resources.
      rewrite !saveCurrentResource_resources, !filter_app.
      rewrite !filter_cons_False, !filter_nil, !app_nil_r by (simpl; congruence).
      apply length_filter.
Qed.

(** X22.  A saved name is never empty.  When the pending name trims to
    nothing the name depends on the number of saved resources only: two
    states give the same default name exactly when they hold as many
    resources.  Otherwise the name is the trimmed pending name. *)
Theorem savedName_default (st st' : State) :
  savedName st ≠ ""
  ∧ (trim (resourceName st) = "" → trim (resourceName st') = "" →
       (savedName st = savedName st'
        ↔ length (resources st) = length (resources st')))
  ∧ (trim (resourceName st) ≠ "" → savedName st = trim (resourceName st)).
Proof.
  split_and!.
  - rewrite savedName_cases. case_decide; [|done].
    unfold String.app. simpl. discriminate.
  - intros Ht Ht'. rewrite !savedName_cases, !decide_True by done.
    split; [|by intros ->].
    intros Heq. apply (inj (String.app "Resource ")), (inj pretty) in Heq. lia.
  - intros Ht. rewrite savedName_cases. by rewrite decide_False.
Qed.
End naming_facts.

(** ** Sessions on the store with its objects *)

Section heap_session_facts.
Import Js Heap.
Context `{codec : !JsonCodec}.

Lemma step_unshared (st : State) (e : Session.Event) :
  HeapSession.unshared st → HeapSession.unshared (HeapSession.step st e).
Proof.
  intros (Hc & Hs & Hnd). destruct e as [c n|v|v|src|i]; cbn [HeapSession.step].
  - split_and!; [by apply setScores_closed|by apply setScores_separate|done].
  - done.
  - done.
  - split_and!; [by apply saveCurrentResource_closed
                |by apply saveCurrentResource_separate|].
    unfold saveCurrentResource; simpl. rewrite fmap_app. apply NoDup_app.
    split_and!; [done| |apply NoDup_singleton].
    intros l Hl Hl'. apply list_elem_of_singleton in Hl'. simpl in Hl'. subst l.
    apply list_elem_of_fmap in Hl as (r & Hr & Hin).
    destruct Hc as [_ Hrs]. eapply Forall_forall in Hrs; [|done]. lia.
  - split_and!; [by apply deleteResource_closed|by apply deleteResource_separate|].
    simpl. apply (sublist_NoDup _ (scores <$> resources st)); [done|].
    apply fmap_sublist, sublist_filter.
Qed.

Lemma step_value (st : State) (e : Session.Event) :
  closed st → value (HeapSession.step st e) = Session.step (value st) e.
Proof.
  intros Hc. destruct e as [c n|v|v|src|i]; cbn [HeapSession.step Session.step].
  - by apply setScores_value.
  - done.
  - done.
  - by apply saveCurrentResource_value.
  - apply deleteResource_value.
Qed.

Lemma run_unshared (events : list Session.Event) (st : State) :
  HeapSession.unshared st →
  HeapSession.unshared (HeapSession.run events st)
  ∧ value (HeapSession.run events st) = Session.run events (value st).
Proof.
  revert st. induction events as [|e events IH]; intros st Hst; [done|].
  unfold HeapSession.run, Session.run. cbn [foldl].
  destruct (IH (HeapSession.step st e)) as [Hu Hv]; [by apply step_unshared|].
  split; [done|]. unfold HeapSession.run, Session.run in Hv.
  rewrite Hv, step_value; [done|apply Hst].
Qed.

Lemma start_unshared (rs : list SavedResource.t) (ls : gmap string string) :
  HeapSession.unshared (start rs ls).
Proof.
  destruct (start_sound rs ls) as (Hc & Hs & _). split_and!; [done..|].
  unfold start; simpl. apply NoDup_alt. intros i j l Hi Hj.
  rewrite list_lookup_fmap in Hi, Hj.
  destruct (imap _ rs !! i) as [ri|] eqn:Hri; [|done].
  destruct (imap _ rs !! j) as [rj|] eqn:Hrj; [|done].
  apply list_lookup_imap_Some in Hri as (x & _ & ->).
  apply list_lookup_imap_Some in Hrj as (y & _ & ->).
  simpl in *. congruence.
Qed.

(** X23.  Objects are never shared.  In every state a session reaches from
    a start, on the store with its objects: all references are live, no
    saved resource refers to the scores object of the state, no two saved
    resources refer to the same object, the values are those of the session
    on the store of values, and an assignment to the scores object of the
    state would change no saved resource. *)
Theorem objects_never_shared (rs : list SavedResource.t) (ls : gmap string string)
    (events : list Session.Event) :
  let st := HeapSession.run events (start rs ls) in
  closed st
  ∧ Forall (λ r, scores r ≠ scores_ref st) (resources st)
  ∧ NoDup (scores <$> resources st)
  ∧ value st = Session.run events (value (start rs ls))
  ∧ ∀ k n r, r ∈ resources st →
      read (assign (scores_ref st) k n (objects st)) (scores r)
      = read (objects st) (scores r).
Proof.
  intros st. destruct (run_unshared events (start rs ls) (start_unshared rs ls))
    as [(Hc & Hs & Hnd) Hv].
  split_and!; try done. intros k n r Hr. by apply assign_keeps_saved.
Qed.
End heap_session_facts.

(** ** Instances of the further theorems with a premise *)

Lemma SliderRow_descriptor_witness :
  ("Impact" ∈ Store.criteria ∧ 1 ≤ 3 ≤ 5)
  ∧ ∀ value', 1 ≤ value' ≤ 5 →
      Scale.shown (Scale.SliderRow "Impact" value')
      = Scale.shown (Scale.SliderRow "Impact" 3) →
      value' = 3.
Proof.
  assert (Hl : "Impact" ∈ Store.criteria) by compute_done.
  assert (Hv : 1 ≤ 3 ≤ 5) by lia.
  split; [by split|].
  exact (proj2 (SliderRow_descriptor "Impact" 3 Hl Hv)).
Defined.

Lemma useQuadrant_name_identifies_witness :
  Engine.useQuadrant Engine.RAID 5 5 = Engine.useQuadrant Engine.RAID 4 4
  ∧ (((5 = 3 ∧ 5 = 3) ∧ (4 = 3 ∧ 4 = 3))
     ∨ (¬ (5 = 3 ∧ 5 = 3) ∧ ¬ (4 = 3 ∧ 4 = 3)
        ∧ Engine.RAID = Engine.RAID
        ∧ (5 >=? 4) = (4 >=? 4) ∧ (5 >=? 4) = (4 >=? 4))).
Proof.
  split; [reflexivity|].
  exact (useQuadrant_name_identifies Engine.RAID Engine.RAID 5 5 4 4
           {| Engine.name := "Sweet Spot";
              Engine.desc := "Strategic choice: valuable locally and backed by curriculum/system." |}
           _ eq_refl eq_refl eq_refl).
Defined.

Lemma toPos_monotone_witness :
  (1 ≤ 2 ≤ 5 ∧ 1 ≤ 4 ≤ 5 ∧ 1 ≤ 1 ≤ 5 ∧ 1 ≤ 5 ≤ 5)
  ∧ (2 < 4 ↔ (Plot.cx (Plot.toPos true 2 1) <? Plot.cx (Plot.toPos true 4 5))%float = true).
Proof.
  assert (H2 : 1 ≤ 2 ≤ 5) by lia. assert (H4 : 1 ≤ 4 ≤ 5) by lia.
  assert (H1 : 1 ≤ 1 ≤ 5) by lia. assert (H5 : 1 ≤ 5 ≤ 5) by lia.
  split; [by split_and!|].
  exact (proj1 (toPos_monotone true 2 4 1 5 H2 H4 H1 H5)).
Defined.

Lemma point_cell_witness :
  (1 ≤ 5 ≤ 5 ∧ 1 ≤ 1 ≤ 5)
  ∧ (5 ≠ 3 → 1 ≠ 3 →
     ∀ i r, PlotArea.rects false !! i = Some r →
       (PlotArea.covers r (Plot.toPos false 5 1) = true
        ↔ i = PlotArea.cellOf (1 >=? 4) (5 >=? 4))).
Proof.
  assert (H5 : 1 ≤ 5 ≤ 5) by lia. assert (H1 : 1 ≤ 1 ≤ 5) by lia.
  split; [by split|].
  exact (proj1 (point_cell false 5 1 H5 H1)).
Defined.

Lemma saved_point_colours_witness :
  ∃ pts,
    Store.pairPoints
      {| Engine.key := Engine.RAID; Engine.title := "Relevance vs Alignment";
         Engine.pair_x := "Alignment"; Engine.pair_y := "Relevance" |}
      (Store.saveCurrentResource Scenario.uuidSource Scenario.page) = Some pts
    ∧ length pts
      = length (Store.resources
                  (Store.saveCurrentResource Scenario.uuidSource Scenario.page)).
Proof.
  destruct (Store.pairPoints _ _) as [pts|] eqn:H.
  - exists pts. split; [reflexivity|].
    exact (proj1 (saved_point_colours _ _ pts H)).
  - vm_compute in H. discriminate.
Defined.

Lemma well_rated_page : Session.well_rated Scenario.page.
Proof.
  split; [|constructor]. intros c Hc. apply criteria_cases in Hc.
  destruct Hc as [->|[->|[->|[->|[->| ->]]]]];
    eexists; (split; [vm_compute; reflexivity|lia]).
Qed.

Lemma from_slider_events : Forall Session.from_slider Trial.events.
Proof.
  repeat (apply Forall_cons; split; [try exact I|]); try apply Forall_nil_2;
    (split; [compute_done|lia]).
Qed.

Lemma ratings_stay_in_range_witness :
  (Session.well_rated Scenario.page ∧ Forall Session.from_slider Trial.events)
  ∧ Session.well_rated (Session.run Trial.events Scenario.page).
Proof.
  split; [split; [apply well_rated_page|apply from_slider_events]|].
  exact (proj1 (ratings_stay_in_range Trial.events Scenario.page
                  well_rated_page from_slider_events)).
Defined.

Lemma restart_recovers_witness :
  Store.start ∅ = Some Trial.freshPage
  ∧ Store.resources
      <$> Store.start
            (Store.localStorage (Session.run Trial.events Trial.freshPage))
    = Some (Store.resources (Session.run Trial.events Trial.freshPage)).
Proof.
  assert (H : Store.start ∅ = Some Trial.freshPage) by reflexivity.
  split; [exact H|].
  pose proof (restart_recovers ∅ Trial.freshPage Trial.events H) as Hr.
  cbv zeta in Hr. rewrite Hr. reflexivity.
Defined.

Lemma uncertain_description_never_shown_witness :
  Store.pair Trial.gatePage = Some Trial.raid
  ∧ Session.summaryView Trial.raid Trial.gatePage
    = Some ("Uncertain",
            "Promising but under-specified—pilot, capture evidence, and co-design a minimal adaptation guide.")
  ∧ Session.panelView Trial.raid Trial.gatePage
    = Session.summaryView Trial.raid Trial.gatePage
  ∧ Session.panelView Trial.efim Trial.gatePage
    = Some ("Uncertain", Engine.desc Engine.Uncertain).
Proof.
  assert (Ha : Store.pair Trial.gatePage = Some Trial.raid) by reflexivity.
  split; [exact Ha|]. split; [reflexivity|]. split; [reflexivity|].
  exact (proj2 (proj2 (proj2 (proj2
    (uncertain_description_never_shown Trial.gatePage Trial.efim))))
    Trial.raid 5 5 Ha eq_refl eq_refl eq_refl eq_refl eq_refl).
Defined.

Lemma delete_removes_one_witness :
  NoDup (SavedResource.id <$> Store.resources Trial.twoSaved)
  ∧ "1700000000001" ∈ SavedResource.id <$> Store.resources Trial.twoSaved
  ∧ (length (Store.resources (Store.deleteResource "1700000000001" Trial.twoSaved))
     + 1 = 2)%nat
  ∧ SavedResource.id
      <$> Store.resources (Store.deleteResource "1700000000001" Trial.twoSaved)
    = ["1b4e28ba-2fa1-4d3b-a3f5-0e6c1f0d9a77"].
Proof.
  assert (Hids : SavedResource.id <$> Store.resources Trial.twoSaved
                 = ["1b4e28ba-2fa1-4d3b-a3f5-0e6c1f0d9a77"; "1700000000001"])
    by reflexivity.
  assert (H : NoDup (SavedResource.id <$> Store.resources Trial.twoSaved)).
  { rewrite Hids. apply NoDup_cons. split; [|apply NoDup_singleton].
    intros Hin. apply list_elem_of_singleton in Hin. discriminate Hin. }
  assert (Hin : "1700000000001"
                ∈ SavedResource.id <$> Store.resources Trial.twoSaved).
  { rewrite Hids. apply elem_of_cons. right. apply list_elem_of_singleton.
    reflexivity. }
  split; [exact H|]. split; [exact Hin|]. split; [|reflexivity].
  exact (proj1 (delete_removes_one "1700000000001" Trial.twoSaved H) Hin).
Defined.

Lemma pdf_first_page_twice_witness :
  Snapshot.handleExport Snapshot.pdf_type 10 Trial.exportEnv Trial.summaryDom
  = Some (Js.Returned (),
          {| Snapshot.classList := Snapshot.classList Trial.summaryDom;
             Snapshot.downloads :=
               [("Johari_Snapshot_2025-03-14.pdf",
                 Snapshot.PdfFile "data:image/jpeg;base64,/9j/4AAQ" 802 1203
                   [20; 20; -535]%float)] |}).
Proof.
  assert (Hfin : is_Some (Plot.float_value
            (Snapshot.height Trial.tallCanvas
             * (Snapshot.pageWidth Trial.exportEnv - 40)
             / Snapshot.width Trial.tallCanvas)%float)).
  { vm_compute. eauto. }
  assert (Hgo : ∀ i, (i ≤ 1)%nat →
            (Snapshot.pageHeight Trial.exportEnv - 40
             <? Snapshot.remainingAfter (Snapshot.pageHeight Trial.exportEnv)
                  (Snapshot.height Trial.tallCanvas
                   * (Snapshot.pageWidth Trial.exportEnv - 40)
                   / Snapshot.width Trial.tallCanvas) i)%float = true).
  { intros [|[|i]] Hi; [reflexivity|reflexivity|lia]. }
  pose proof (proj1 (proj2 (proj1 (proj2 (pdf_first_page_twice Trial.exportEnv
                Trial.tallCanvas _ eq_refl eq_refl eq_refl)) Hfin eq_refl))
              1%nat Hgo eq_refl 10%nat Trial.summaryDom) as Hrun.
  rewrite Hrun; [|lia]. reflexivity.
Defined.

